(** * SimpleSDR: a shallow embedding of [simple_free_sdr.py]

    The development follows the Python module top-down: text primitives
    ([str.lower], [str.strip], [str.startswith], f-string rendering), the
    conversation dictionary, the external collaborators (chat completion,
    SMTP submission, IMAP mailbox), the methods of the class [SimpleSDR],
    the Flask route, and then the properties.

    Conventions.
    - A Python [str] is a [string]; the case and whitespace tables are those
      of CPython on code points below 128, other characters are left alone.
    - A Python value that may be [None] (a missing header, a missing JSON
      key) is an [option string].
    - Exceptions are explicit: a computation returns [Ret v] or [Raise e]
      together with the state reached when it stopped.
    - External calls are answered by oracles that see the history of the
      run so far; every call and its answer is appended to the log.
    - [print] statements are not modelled, except the first statement of
      [handle_reply], which is kept as the log entry [EvHandleReply]. *)

From Stdlib Require Import Ascii List Bool Arith Lia.
From Stdlib Require String.
From stdpp Require Import base option list strings gmap.

(** ** Text primitives *)

Module Text.

Definition chr (n : nat) : string := String (ascii_of_nat n) EmptyString.

Definition NL : string := chr 10.

(** [A-Z] *)
Definition is_upper (c : ascii) : bool :=
  let n := nat_of_ascii c in (65 <=? n) && (n <=? 90).

(** [str.lower] on one character: [A-Z] moves to [a-z]. *)
Definition lower_char (c : ascii) : ascii :=
  if is_upper c then ascii_of_nat (nat_of_ascii c + 32) else c.

Fixpoint lower (s : string) : string :=
  match s with
  | EmptyString => EmptyString
  | String c r => String (lower_char c) (lower r)
  end.

(** [str.isspace] on one character: TAB, LF, VT, FF, CR, FS, GS, RS, US
    and the space. *)
Definition isspace (c : ascii) : bool :=
  let n := nat_of_ascii c in
  ((9 <=? n) && (n <=? 13)) || ((28 <=? n) && (n <=? 32)).

Fixpoint lstrip (s : string) : string :=
  match s with
  | EmptyString => EmptyString
  | String c r => if isspace c then lstrip r else s
  end.

Fixpoint rstrip (s : string) : string :=
  match s with
  | EmptyString => EmptyString
  | String c r =>
      match rstrip r with
      | EmptyString => if isspace c then EmptyString else String c EmptyString
      | r' => String c r'
      end
  end.

(** [s.strip()] *)
Definition strip (s : string) : string := rstrip (lstrip s).

(** [s.startswith(p)] *)
Fixpoint startswith (s p : string) {struct p} : bool :=
  match p, s with
  | EmptyString, _ => true
  | String a p', String b s' => if ascii_dec a b then startswith s' p' else false
  | String _ _, EmptyString => false
  end.

(** [s.replace(c, '')] for a one-character [c] *)
Fixpoint remove_char (c : ascii) (s : string) : string :=
  match s with
  | EmptyString => EmptyString
  | String a r => if ascii_dec a c then remove_char c r else String a (remove_char c r)
  end.

(** How an f-string renders a value that may be [None]. *)
Definition fmt (v : option string) : string :=
  match v with
  | Some s => s
  | None => "None"
  end.

(** Every line of the triple-quoted prompts is indented by eight spaces,
    the blank ones included. *)
Definition IND : string := "        ".

Definition line (s : string) : string := IND +:+ s +:+ NL.

End Text.

Import Text.

(** ** Exceptions and the state monad of the embedding *)

Inductive exn : Type :=
| AttributeError      (* a method called on [None] *)
| IndexError          (* list index out of range *)
| ValueError          (* raised by [SimpleSDR.__init__] *)
| UnicodeDecodeError  (* [bytes.decode] on a payload that is not UTF-8 *)
| ApiError            (* the chat completion call failed *)
| ImapError.          (* the IMAP connection or login failed *)

Inductive outcome (A : Type) : Type :=
| Ret (a : A)
| Raise (e : exn).

Arguments Ret {A} a.
Arguments Raise {A} e.

Definition M (S A : Type) : Type := S -> outcome A * S.

Definition ret {S A : Type} (a : A) : M S A := fun s => (Ret a, s).

Definition raise {S A : Type} (e : exn) : M S A := fun s => (Raise e, s).

Definition bind {S A B : Type} (m : M S A) (k : A -> M S B) : M S B :=
  fun s =>
    match m s with
    | (Ret a, s') => k a s'
    | (Raise e, s') => (Raise e, s')
    end.

(** [try: m except Exception as e: h e] *)
Definition try_except {S A : Type} (m : M S A) (h : exn -> M S A) : M S A :=
  fun s =>
    match m s with
    | (Ret a, s') => (Ret a, s')
    | (Raise e, s') => h e s'
    end.

Definition gets {S A : Type} (f : S -> A) : M S A := fun s => (Ret (f s), s).

Definition modify {S : Type} (f : S -> S) : M S unit := fun s => (Ret tt, f s).

Notation "'let*' x ':=' m 'in' k" := (bind m (fun x => k))
  (at level 10, x name, m at level 100, k at level 200).
Notation "m >> k" := (bind m (fun _ => k))
  (at level 90, right associativity).

(** [for x in xs: body x] *)
Fixpoint for_each {S A : Type} (xs : list A) (body : A -> M S unit) : M S unit :=
  match xs with
  | [] => ret tt
  | x :: rest => body x >> for_each rest body
  end.

(** [[f x for x in xs]], evaluated left to right *)
Fixpoint map_M {S A B : Type} (f : A -> M S B) (xs : list A) : M S (list B) :=
  match xs with
  | [] => ret []
  | x :: rest => let* y := f x in let* ys := map_M f rest in ret (y :: ys)
  end.

(** [xs[i]] *)
Definition index {S : Type} (xs : list string) (i : nat) : M S string :=
  match xs !! i with
  | Some x => ret x
  | None => raise IndexError
  end.

(** A method call [v.m(...)] on a value that may be [None]. *)
Definition attr {S : Type} (v : option string) : M S string :=
  match v with
  | Some s => ret s
  | None => raise AttributeError
  end.

(** ** The external collaborators *)

(** The arguments of [openai.chat.completions.create]: one user message;
    the temperature is kept in tenths. *)
Record chat_request : Type := ChatRequest {
  model : string;
  content : string;
  max_tokens : nat;
  temperature_tenths : nat
}.

(** What [check_for_replies] reads from a parsed message: the two headers
    (absent headers read as [None]) and the payload. A text that does not
    decode is [None]. [parts] lists what [walk()] yields, in order. *)
Record part : Type := Part {
  content_type : string;
  part_text : option string
}.

Inductive payload : Type :=
| Single (text : option string)
| Multipart (parts : list part).

Record message : Type := Message {
  msg_from : option string;
  msg_subject : option string;
  msg_payload : payload
}.

Record mail_item : Type := MailItem {
  msg_id : nat;
  seen : bool;
  msg : message
}.

(** The remote mailbox. [fetch_sets_seen] is a property of the server:
    whether fetching a message flags it \Seen by itself, before the client
    stores the flag. *)
Record Mailbox : Type := MkMailbox {
  reachable : bool;
  fetch_sets_seen : bool;
  items : list mail_item
}.

Inductive event : Type :=
| EvChat (req : chat_request) (answer : option string)
| EvSmtp (sender to_email subject body : string) (ok : bool)
| EvImapFetch (id : nat)
| EvImapSeen (id : nat)
| EvHandleReply (from_email subject body : option string)
| EvSleep (seconds : nat).

(** Everything outside the Python objects: [os.environ], the two oracles,
    the mailbox and the log (oldest entry first). An oracle answers from the
    history so far and the arguments of the call; [None] from the chat
    oracle means that the call, or reading the text out of its response,
    raised. *)
Record World : Type := MkWorld {
  environ : gmap string string;
  chat_oracle : list event -> chat_request -> option string;
  smtp_oracle : list event -> string -> string -> string -> bool;
  inbox : Mailbox;
  log : list event
}.

Definition push (e : event) (w : World) : World :=
  MkWorld (environ w) (chat_oracle w) (smtp_oracle w) (inbox w) (log w ++ [e]).

Definition with_inbox (mb : Mailbox) (w : World) : World :=
  MkWorld (environ w) (chat_oracle w) (smtp_oracle w) mb (log w).

Definition emit (e : event) : M World unit := modify (push e).

Definition set_inbox (mb : Mailbox) : M World unit := modify (with_inbox mb).

(** [openai.chat.completions.create(...)] followed by
    [response.choices[0].message.content] *)
Definition chat_create (req : chat_request) : M World string :=
  let* answer := gets (fun w => chat_oracle w (log w) req) in
  emit (EvChat req answer) >>
  match answer with
  | Some text => ret text
  | None => raise ApiError
  end.

(** *** IMAP *)

Definition mark_seen (id : nat) (it : mail_item) : mail_item :=
  if Nat.eqb (msg_id it) id then MailItem (msg_id it) true (msg it) else it.

Definition flag_seen (id : nat) (mb : Mailbox) : Mailbox :=
  MkMailbox (reachable mb) (fetch_sets_seen mb) (map (mark_seen id) (items mb)).

(** [imaplib.IMAP4_SSL(...)], [login], [select('inbox')] *)
Definition imap_connect : M World unit :=
  let* up := gets (fun w => reachable (inbox w)) in
  if up then ret tt else raise ImapError.

(** The identifiers of the unseen messages, in mailbox order. *)
Definition unseen (mb : Mailbox) : list nat :=
  map msg_id (filter (fun it => negb (seen it)) (items mb)).

(** [mail.search(None, 'UNSEEN')] *)
Definition imap_search_unseen : M World (list nat) :=
  gets (fun w => unseen (inbox w)).

(** [mail.fetch(msg_id, '(RFC822)')]; [None] stands for a status other
    than OK. *)
Definition imap_fetch (id : nat) : M World (option message) :=
  let* mb := gets inbox in
  emit (EvImapFetch id) >>
  match find (fun it => Nat.eqb (msg_id it) id) (items mb) with
  | Some it =>
      (if fetch_sets_seen mb then set_inbox (flag_seen id mb) else ret tt) >>
      ret (Some (msg it))
  | None => ret None
  end.

(** [mail.store(msg_id, '+FLAGS', '\\Seen')] *)
Definition imap_store_seen (id : nat) : M World unit :=
  let* mb := gets inbox in
  emit (EvImapSeen id) >>
  set_inbox (flag_seen id mb).

(** ** The class [SimpleSDR] *)

(** The attributes the methods read or write. The SMTP and IMAP settings
    only parameterise the transport and are part of the oracles. *)
Record SimpleSDR : Type := MkSDR {
  email_address : string;
  company_name : string;
  company_description : string;
  conversations : gmap string string
}.

(** The running program: one long-lived instance and the outside world. *)
Record Sys : Type := MkSys {
  sdr : SimpleSDR;
  ext : World
}.

(** Run a computation on the outside world, the instance left alone. *)
Definition on_world {A : Type} (m : M World A) : M Sys A :=
  fun s => let '(r, w) := m (ext s) in (r, MkSys (sdr s) w).

(** Run a method on a local instance, which is dropped afterwards. *)
Definition with_instance {A : Type} (self : SimpleSDR) (m : M Sys A) : M World A :=
  fun w => let '(r, s) := m (MkSys self w) in (r, ext s).

(** [d.get(key, "")] *)
Definition dict_get (d : gmap string string) (key : string) : string :=
  match d !! key with
  | Some v => v
  | None => EmptyString
  end.

(** [self.conversations[key] = text] *)
Definition with_conversation (key text : string) (self : SimpleSDR) : SimpleSDR :=
  MkSDR (email_address self) (company_name self) (company_description self)
        (<[key := text]> (conversations self)).

Definition set_conversation (key text : string) : M Sys unit :=
  modify (fun s => MkSys (with_conversation key text (sdr s)) (ext s)).

(** [int(s)] for a decimal literal: whitespace around it is dropped, one
    sign may come first, and single underscores may stand between digits.
    [None] is [ValueError]. The bound recent CPython versions put on the
    number of digits (4300 unless configured) is not modelled. *)
Definition is_digit (c : ascii) : bool :=
  let n := nat_of_ascii c in (48 <=? n) && (n <=? 57).

Definition is_underscore (c : ascii) : bool := Nat.eqb (nat_of_ascii c) 95.

Fixpoint int_digits (acc : Z) (after_digit : bool) (s : string) : option Z :=
  match s with
  | EmptyString => if after_digit then Some acc else None
  | String c r =>
      if is_digit c
      then int_digits (10 * acc + Z.of_nat (nat_of_ascii c - 48))%Z true r
      else if is_underscore c && after_digit
           then int_digits acc false r
           else None
  end.

Definition py_int (s : string) : option Z :=
  match strip s with
  | String c r =>
      if Nat.eqb (nat_of_ascii c) 43 then int_digits 0%Z false r
      else if Nat.eqb (nat_of_ascii c) 45 then Z.opp <$> int_digits 0%Z false r
      else int_digits 0%Z false (String c r)
  | EmptyString => None
  end.

(** [SimpleSDR.__init__]. [environ] is [os.environ] as [load_dotenv] leaves
    it. A missing or empty API key raises [ValueError], and so does a port
    setting that [int] does not accept; the server names and the port only
    parameterise the transport and are not kept. *)
Definition SimpleSDR_init : M World SimpleSDR :=
  let* env := gets environ in
  match env !! "OPENAI_API_KEY" with
  | None | Some EmptyString => raise ValueError
  | Some _ =>
      match py_int (default "587" (env !! "SMTP_PORT")) with
      | None => raise ValueError
      | Some smtp_port =>
          ret (MkSDR (default "your-email@gmail.com" (env !! "EMAIL_ADDRESS"))
                     "ComplAI"
                     "AI-powered SOC2 compliance automation"
                     ∅)
      end
  end.

(** *** generate_cold_email *)

Definition personas : gmap string string :=
  list_to_map
    [("professional", "Write a professional, formal cold sales email");
     ("engaging", "Write a witty, engaging cold sales email that's likely to get a response");
     ("concise", "Write a brief, direct cold sales email that gets straight to the point")].

(** [personas.get(persona, personas["professional"])] *)
Definition personas_get (persona : string) : string :=
  match personas !! persona with
  | Some t => t
  | None => dict_get personas "professional"
  end.

Definition cold_email_prompt (self : SimpleSDR) (persona recipient : string) : string :=
  NL +:+ line (personas_get persona +:+ ".")
     +:+ line EmptyString
     +:+ line ("Company: " +:+ company_name self)
     +:+ line ("Product: " +:+ company_description self)
     +:+ line ("Recipient: " +:+ recipient)
     +:+ line EmptyString
     +:+ line "Make it compelling and personalized. Include a clear call to action."
     +:+ line "Keep it under 150 words."
     +:+ IND.

Definition cold_email_request (self : SimpleSDR) (persona recipient : string) : chat_request :=
  ChatRequest "gpt-3.5-turbo" (cold_email_prompt self persona recipient) 300 7.

Definition cold_email_fallback (self : SimpleSDR) (recipient : string) : string :=
  "Hi " +:+ recipient +:+ "," +:+ NL +:+ NL
  +:+ "I'd love to show you how " +:+ company_name self
  +:+ " can help with " +:+ company_description self +:+ "." +:+ NL +:+ NL
  +:+ "Interested in a quick chat?" +:+ NL +:+ NL
  +:+ "Best regards".

Definition generate_cold_email (self : SimpleSDR) (persona recipient : string) : M World string :=
  try_except
    (let* text := chat_create (cold_email_request self persona recipient) in
     ret (strip text))
    (fun _ => ret (cold_email_fallback self recipient)).

(** *** select_best_email *)

Definition select_prompt (e0 e1 e2 : string) : string :=
  NL +:+ line "Pick the best cold sales email from these options. Consider which one a busy executive would be most likely to respond to."
     +:+ line EmptyString
     +:+ line "Return only the selected email, no explanation."
     +:+ line EmptyString
     +:+ line "Options:"
     +:+ line EmptyString
     +:+ line ("1. " +:+ e0)
     +:+ line EmptyString
     +:+ line ("2. " +:+ e1)
     +:+ line EmptyString
     +:+ line ("3. " +:+ e2)
     +:+ IND.

Definition select_request (e0 e1 e2 : string) : chat_request :=
  ChatRequest "gpt-3.5-turbo" (select_prompt e0 e1 e2) 400 3.

(** The prompt is built before the [try]: the three subscripts are
    evaluated, left to right, outside the guarded region. *)
Definition select_best_email (self : SimpleSDR) (emails : list string) : M World string :=
  let* e0 := index emails 0 in
  let* e1 := index emails 1 in
  let* e2 := index emails 2 in
  try_except
    (let* text := chat_create (select_request e0 e1 e2) in
     ret (strip text))
    (fun _ => index emails 0).

(** *** send_email_smtp *)

(** The whole body is inside [try]; any failure of the SMTP session is
    reported as [False]. *)
Definition send_email_smtp (self : SimpleSDR) (to_email subject body : string) : M World bool :=
  let* ok := gets (fun w => smtp_oracle w (log w) to_email subject body) in
  emit (EvSmtp (email_address self) to_email subject body ok) >>
  ret ok.

(** *** generate_reply *)

Definition reply_prompt (self : SimpleSDR) (original_email : string)
    (reply_content : option string) : string :=
  NL +:+ line ("You are a sales representative for " +:+ company_name self
               +:+ ", which provides " +:+ company_description self +:+ ".")
     +:+ line EmptyString
     +:+ line "A prospect replied to your cold email. Generate a helpful, professional response that continues the conversation."
     +:+ line EmptyString
     +:+ line "Original email you sent:"
     +:+ line original_email
     +:+ line EmptyString
     +:+ line "Their reply:"
     +:+ line (fmt reply_content)
     +:+ line EmptyString
     +:+ line "Write a response that:"
     +:+ line "1. Acknowledges their reply"
     +:+ line "2. Provides helpful information"
     +:+ line "3. Moves the conversation forward"
     +:+ line "4. Includes a clear next step"
     +:+ line EmptyString
     +:+ line "Keep it conversational and under 200 words."
     +:+ IND.

Definition reply_request (self : SimpleSDR) (original_email : string)
    (reply_content : option string) : chat_request :=
  ChatRequest "gpt-3.5-turbo" (reply_prompt self original_email reply_content) 400 7.

Definition reply_fallback : string :=
  "Thank you for your reply! I'd love to continue our conversation. When would be a good time for a brief call?".

Definition generate_reply (self : SimpleSDR) (original_email : string)
    (reply_content : option string) : M World string :=
  try_except
    (let* text := chat_create (reply_request self original_email reply_content) in
     ret (strip text))
    (fun _ => ret reply_fallback).

(** *** handle_reply *)

(** [f"Re: {subject}" if not subject.startswith('Re:') else subject] *)
Definition reply_subject (subject : string) : string :=
  if negb (startswith subject "Re:") then "Re: " +:+ subject else subject.

Definition THEIR_REPLY : string := NL +:+ NL +:+ "--- THEIR REPLY ---" +:+ NL.

Definition MY_REPLY : string := NL +:+ NL +:+ "--- MY REPLY ---" +:+ NL.

(** The new thread text written after a successful send. *)
Definition thread_update (original_email : string) (body : option string)
    (reply : string) : string :=
  original_email +:+ THEIR_REPLY +:+ fmt body +:+ MY_REPLY +:+ reply.

Definition handle_reply (from_email subject body : option string) : M Sys unit :=
  on_world (emit (EvHandleReply from_email subject body)) >>
  let* sender := attr from_email in
  let conversation_key := lower sender in
  let* self := gets sdr in
  let original_email := dict_get (conversations self) conversation_key in
  let* reply := on_world (generate_reply self original_email body) in
  let* subject_text := attr subject in
  let* success := on_world (send_email_smtp self sender (reply_subject subject_text) reply) in
  if success
  then set_conversation conversation_key (thread_update original_email body reply)
  else ret tt.

(** *** check_for_replies *)

Definition is_text_plain (p : part) : bool := String.eqb (content_type p) "text/plain".

Definition decode {S : Type} (text : option string) : M S string :=
  match text with
  | Some s => ret s
  | None => raise UnicodeDecodeError
  end.

(** The body is the first text/plain part of a multipart message (the empty
    string when there is none), the payload itself otherwise. *)
Definition extract_body {S : Type} (m : message) : M S string :=
  match msg_payload m with
  | Multipart parts =>
      match find is_text_plain parts with
      | Some p => decode (part_text p)
      | None => ret EmptyString
      end
  | Single text => decode text
  end.

Definition process_message (id : nat) : M Sys unit :=
  let* fetched := on_world (imap_fetch id) in
  match fetched with
  | Some email_message =>
      let from_email := msg_from email_message in
      let subject := msg_subject email_message in
      let* body := extract_body email_message in
      handle_reply from_email subject (Some body) >>
      on_world (imap_store_seen id)
  | None => ret tt
  end.

Definition check_for_replies : M Sys unit :=
  try_except
    (on_world imap_connect >>
     let* unseen := on_world imap_search_unseen in
     for_each unseen process_message)
    (fun _ => ret tt).

(** *** run_cold_email_campaign *)

Definition quote_char : ascii := ascii_of_nat 34.

Definition subject_prompt (best_email : string) : string :=
  "Write a compelling email subject line for this cold sales email:" +:+ NL +:+ NL
  +:+ best_email +:+ NL +:+ NL
  +:+ "Make it likely to get opened. Under 50 characters.".

Definition subject_request (best_email : string) : chat_request :=
  ChatRequest "gpt-3.5-turbo" (subject_prompt best_email) 50 7.

Definition generate_subject (self : SimpleSDR) (best_email : string) : M World string :=
  try_except
    (let* text := chat_create (subject_request best_email) in
     ret (remove_char quote_char (strip text)))
    (fun _ => ret ("Quick question about " +:+ company_name self)).

Definition campaign_personas : list string := ["professional"; "engaging"; "concise"].

(** One iteration of the loop over the recipients. *)
Definition campaign_step (recipient : string) : M Sys unit :=
  let* self := gets sdr in
  let* emails := on_world (map_M (fun persona => generate_cold_email self persona "CEO")
                                 campaign_personas) in
  let* best_email := on_world (select_best_email self emails) in
  let* subject := on_world (generate_subject self best_email) in
  let* success := on_world (send_email_smtp self recipient subject best_email) in
  (if success then set_conversation (lower recipient) best_email else ret tt) >>
  on_world (emit (EvSleep 30)).

Definition run_cold_email_campaign (recipients : list string) : M Sys unit :=
  for_each recipients campaign_step.

(** *** start_reply_monitoring *)

(** The first [cycles] iterations of the [while True] loop of [monitor]. *)
Fixpoint monitor (cycles : nat) : M Sys unit :=
  match cycles with
  | 0 => ret tt
  | S n =>
      try_except
        (check_for_replies >> on_world (emit (EvSleep 60)))
        (fun _ => on_world (emit (EvSleep 60))) >>
      monitor n
  end.

(** ** The Flask route [/webhook/email-reply] *)

Inductive http_response : Type :=
| Http200
| Http500 (e : exn).

(** [data] is the JSON object of the request, its values strings;
    [data.get(k)] is [data !! k]. The instance is built inside the route,
    once per request. *)
Definition handle_webhook_reply (data : gmap string string) : M World http_response :=
  try_except
    (let from_email := data !! "from" in
     let subject := data !! "subject" in
     let body := data !! "body" in
     let* self := SimpleSDR_init in
     with_instance self (handle_reply from_email subject body) >>
     ret Http200)
    (fun e => ret (Http500 e)).

(** ** The conversation store as [handle_reply] reads it *)

(** [self.conversations.get(addr.lower(), "")] *)
Definition store_get (store : gmap string string) (addr : string) : string :=
  dict_get store (lower addr).

(** What a generator returns for an answer of the model: the stripped text,
    or the fallback when the call failed. *)
Definition answer_or (fallback : string) (answer : option string) : string :=
  match answer with
  | Some text => strip text
  | None => fallback
  end.

(** ** Observing a run *)

(** The log entries added between two states of the world. *)
Definition new_events (before after : World) : list event :=
  drop (length (log before)) (log after).

(** The final state of a run. *)
Definition final {S A : Type} (r : outcome A * S) : S := snd r.

(** The arguments of the invocations of [handle_reply] recorded in a log. *)
Fixpoint handled (evs : list event) : list (option string * option string * option string) :=
  match evs with
  | [] => []
  | EvHandleReply f sj b :: rest => (f, sj, b) :: handled rest
  | _ :: rest => handled rest
  end.

(** ** Which entries a computation may write *)

(** [s'] agrees with [s] on every key of the store outside [K]. *)
Definition outside (K : string -> Prop) (s s' : Sys) : Prop :=
  forall key, ~ K key -> conversations (sdr s') !! key = conversations (sdr s) !! key.

(** A computation that writes the store only at keys in [K], whether it
    returns or raises. *)
Definition frames {A : Type} (K : string -> Prop) (m : M Sys A) : Prop :=
  forall s, outside K s (final (m s)).

(** ** Comparing addresses *)

(** The same character, or the two cases of one letter. *)
Definition same_letter (a b : ascii) : bool :=
  Ascii.eqb a b
  || (is_upper a && (nat_of_ascii b =? nat_of_ascii a + 32))
  || (is_upper b && (nat_of_ascii a =? nat_of_ascii b + 32)).

(** Two strings that differ at most in the case of their letters. *)
Fixpoint same_ignoring_case (a b : string) : bool :=
  match a, b with
  | EmptyString, EmptyString => true
  | String x a', String y b' => same_letter x y && same_ignoring_case a' b'
  | _, _ => false
  end.

(** ** Concrete worlds for the examples *)

Definition test_environ : gmap string string :=
  {["OPENAI_API_KEY" := "sk-test"; "EMAIL_ADDRESS" := "sdr@complai.test"]}.

(** The instance [SimpleSDR()] builds in [test_environ]. *)
Definition me : SimpleSDR :=
  MkSDR "sdr@complai.test" "ComplAI" "AI-powered SOC2 compliance automation" ∅.

Definition quiet_inbox : Mailbox := MkMailbox true false [].

(** One unseen message, number 1, on a server that flags on fetch or not. *)
Definition inbox_with (flags_on_fetch : bool) (m : message) : Mailbox :=
  MkMailbox true flags_on_fetch [MailItem 1 false m].

(** A world where the model is down and the transport answers [ok]. *)
Definition offline_with (mb : Mailbox) (ok : bool) : World :=
  MkWorld test_environ (fun _ _ => None) (fun _ _ _ _ => ok) mb [].

Definition offline (ok : bool) : World := offline_with quiet_inbox ok.

(** A world where the model answers [text] to everything. *)
Definition parrot (text : string) (ok : bool) : World :=
  MkWorld test_environ (fun _ _ => Some text) (fun _ _ _ _ => ok) quiet_inbox [].

(** A running instance that already holds one conversation. *)
Definition seeded_with (mb : Mailbox) (ok : bool) : Sys :=
  MkSys (with_conversation "x@y.com" "Hello" me) (offline_with mb ok).

Definition seeded (ok : bool) : Sys := seeded_with quiet_inbox ok.

(** The same reply as a message in the mailbox and as a webhook request. *)
Definition reply_mail : message :=
  Message (Some "x@y.com") (Some "Hi") (Single (Some "Tell me more")).

Definition reply_json : gmap string string :=
  list_to_map [("from", "x@y.com"); ("subject", "Hi"); ("body", "Tell me more")].

(** A message without a Subject header. *)
Definition no_subject_mail : message :=
  Message (Some "x@y.com") None (Single (Some "Tell me more")).

(** ** Reading a log *)

(** One call of [send_email_smtp] and what it returned. *)
Record submission : Type := Submission {
  sub_to : string;
  sub_subject : string;
  sub_body : string;
  sub_ok : bool
}.

(** The submissions recorded in a log. *)
Fixpoint sent (evs : list event) : list submission :=
  match evs with
  | [] => []
  | EvSmtp _ to_email subject body ok :: rest =>
      Submission to_email subject body ok :: sent rest
  | _ :: rest => sent rest
  end.

(** The pauses recorded in a log, in seconds. *)
Fixpoint sleeps (evs : list event) : list nat :=
  match evs with
  | [] => []
  | EvSleep n :: rest => n :: sleeps rest
  | _ :: rest => sleeps rest
  end.

(** The message numbers fetched according to a log. *)
Fixpoint fetched (evs : list event) : list nat :=
  match evs with
  | [] => []
  | EvImapFetch id :: rest => id :: fetched rest
  | _ :: rest => fetched rest
  end.

(** The requests made to the model according to a log. *)
Fixpoint asked (evs : list event) : list chat_request :=
  match evs with
  | [] => []
  | EvChat req _ :: rest => req :: asked rest
  | _ :: rest => asked rest
  end.

(** [c] occurs in [s]. *)
Fixpoint has_char (c : ascii) (s : string) : bool :=
  match s with
  | EmptyString => false
  | String a r => if ascii_dec a c then true else has_char c r
  end.

(** [OPENAI_API_KEY] is set to a non-empty value. *)
Definition api_key_set (w : World) : Prop :=
  exists c key, environ w !! "OPENAI_API_KEY" = Some (String c key).

(** [SMTP_PORT], or its default, is a number for [int]. *)
Definition port_parses (w : World) : Prop :=
  is_Some (py_int (default "587" (environ w !! "SMTP_PORT"))).

(** [SimpleSDR()] can be built. *)
Definition init_succeeds (w : World) : Prop := api_key_set w /\ port_parses w.

(** ** One iteration of the campaign, by the answers it received *)

(** The answers of the collaborators during one iteration: the three
    drafts, the selection, the subject line and the outcome of the send. *)
Record step_answers : Type := StepAnswers {
  ans_professional : option string;
  ans_engaging : option string;
  ans_concise : option string;
  ans_select : option string;
  ans_subject : option string;
  ans_sent : bool
}.

Definition step_draft (self : SimpleSDR) (answer : option string) : string :=
  answer_or (cold_email_fallback self "CEO") answer.

Definition step_best (self : SimpleSDR) (a : step_answers) : string :=
  answer_or (step_draft self (ans_professional a)) (ans_select a).

Definition step_subject (self : SimpleSDR) (a : step_answers) : string :=
  match ans_subject a with
  | Some text => remove_char quote_char (strip text)
  | None => "Quick question about " +:+ company_name self
  end.

Definition step_events (self : SimpleSDR) (recipient : string) (a : step_answers)
    : list event :=
  [EvChat (cold_email_request self "professional" "CEO") (ans_professional a);
   EvChat (cold_email_request self "engaging" "CEO") (ans_engaging a);
   EvChat (cold_email_request self "concise" "CEO") (ans_concise a);
   EvChat (select_request (step_draft self (ans_professional a))
                          (step_draft self (ans_engaging a))
                          (step_draft self (ans_concise a)))
          (ans_select a);
   EvChat (subject_request (step_best self a)) (ans_subject a);
   EvSmtp (email_address self) recipient (step_subject self a) (step_best self a)
          (ans_sent a);
   EvSleep 30].

(** [w] with more entries at the end of its log. *)
Definition log_more (evs : list event) (w : World) : World :=
  MkWorld (environ w) (chat_oracle w) (smtp_oracle w) (inbox w) (log w ++ evs).

(** [a] is an answer of the model of [w]. *)
Definition answered (w : World) (a : option string) : Prop :=
  exists history req, a = chat_oracle w history req.

(** The state after one iteration that received the answers [a]. *)
Definition step_state (recipient : string) (a : step_answers) (s : Sys) : Sys :=
  MkSys (if ans_sent a
         then with_conversation (lower recipient) (step_best (sdr s) a) (sdr s)
         else sdr s)
        (log_more (step_events (sdr s) recipient a) (ext s)).

(** Every answer of an iteration comes from the model of [w]. *)
Definition step_answered (w : World) (a : step_answers) : Prop :=
  answered w (ans_professional a) /\ answered w (ans_engaging a)
  /\ answered w (ans_concise a) /\ answered w (ans_select a)
  /\ answered w (ans_subject a).

(** [campaign_reaches recipients s evs s']: iterating over [recipients] from
    [s] logs [evs] and ends in [s']. *)
Inductive campaign_reaches : list string -> Sys -> list event -> Sys -> Prop :=
| reaches_nil (s : Sys) : campaign_reaches [] s [] s
| reaches_cons (r : string) (rs : list string) (s s' : Sys) (a : step_answers)
    (evs : list event) :
    step_answered (ext s) a ->
    campaign_reaches rs (step_state r a s) evs s' ->
    campaign_reaches (r :: rs) s (step_events (sdr s) r a ++ evs) s'.

(** ** Invariants *)

(** [m] keeps the invariant [I], whether it returns or raises. *)
Definition keeps {A : Type} (I : Sys -> Prop) (m : M Sys A) : Prop :=
  forall s, I s -> I (final (m s)).

(** Every key of the conversation store is in lower case. *)
Definition keys_lower (self : SimpleSDR) : Prop :=
  forall key, is_Some (conversations self !! key) -> lower key = key.

(** The mailbox during polling, relative to the message numbers [U] and the
    log [L0] of the moment polling started: only numbers of [U] are unseen,
    and only numbers of [U] were fetched since. *)
Definition unseen_within (U : list nat) (w : World) : Prop :=
  forall id, In id (unseen (inbox w)) -> In id U.

Definition fetches_within (U : list nat) (L0 : list event) (w : World) : Prop :=
  exists evs, log w = L0 ++ evs /\ forall id, In id (fetched evs) -> In id U.

(** The messages of a mailbox without their flags. *)
Definition mail (mb : Mailbox) : list (nat * message) :=
  map (fun it => (msg_id it, msg it)) (items mb).

Definition poll_inv (U : list nat) (L0 : list event) (C : list (nat * message))
    (w : World) : Prop :=
  unseen_within U w /\ fetches_within U L0 w /\ mail (inbox w) = C.

(** ** Messages as the monitor reads them *)

(** The body [extract_body] returns for a message, [None] when decoding
    raises. *)
Definition body_of (m : message) : option string :=
  match msg_payload m with
  | Multipart parts =>
      match find is_text_plain parts with
      | Some p => part_text p
      | None => Some EmptyString
      end
  | Single text => text
  end.

(** A message [handle_reply] can be called on without an exception: both
    headers are present and the body decodes. *)
Definition well_formed (m : message) : Prop :=
  is_Some (msg_from m) /\ is_Some (msg_subject m) /\ is_Some (body_of m).

(** The message [mail.fetch] returns for a number. *)
Definition lookup_msg (mb : Mailbox) (id : nat) : option message :=
  msg <$> find (fun it => Nat.eqb (msg_id it) id) (items mb).

(** The world after [mail.fetch(id, ...)]. *)
Definition after_fetch (id : nat) (w : World) : World :=
  match lookup_msg (inbox w) id with
  | Some _ =>
      if fetch_sets_seen (inbox w)
      then with_inbox (flag_seen id (inbox w)) (push (EvImapFetch id) w)
      else push (EvImapFetch id) w
  | None => push (EvImapFetch id) w
  end.

(** The mailbox after the flags of [ids] were stored. *)
Definition flag_all (ids : list nat) (mb : Mailbox) : Mailbox :=
  fold_left (fun acc id => flag_seen id acc) ids mb.


(** The log of [w] is [L0] followed by entries without a pause. *)
Definition quiet_since (L0 : list event) (w : World) : Prop :=
  exists evs, log w = L0 ++ evs /\ sleeps evs = [].

(** ** Threads over time *)

(** Every thread of [self] begins with the thread [self0] has under the
    same key. *)
Definition threads_extend (self0 self : SimpleSDR) : Prop :=
  forall key,
    startswith (dict_get (conversations self) key)
               (dict_get (conversations self0) key) = true.

(** ** [main], up to the start of the monitor *)

Inductive stop_reason : Type :=
| NotConfigured        (* the address is still the placeholder *)
| TestFailed           (* the test email could not be submitted *)
| ConfigurationError   (* [ValueError] from [SimpleSDR()] *)
| UnexpectedError.     (* any other exception *)

Inductive startup : Type :=
| Stopped (why : stop_reason)
| Started (self : SimpleSDR).

Definition placeholder_address : string := "your-email@gmail.com".

Definition test_subject : string := "Test - Simple SDR System".

Definition test_body : string :=
  "This is a test email from your Simple SDR system. If you receive this, email sending is working!".

(** The body of [main] from [SimpleSDR()] to the call of
    [start_reply_monitoring]; the endless wait that follows is left out. *)
Definition main_startup : M World startup :=
  try_except
    (let* self := SimpleSDR_init in
     if String.eqb (email_address self) placeholder_address
     then ret (Stopped NotConfigured)
     else
       let* test_success :=
         send_email_smtp self (email_address self) test_subject test_body in
       if negb test_success
       then ret (Stopped TestFailed)
       else
         let* sample_emails :=
           map_M (fun persona => generate_cold_email self persona "Startup CEO")
                 campaign_personas in
         let* best := select_best_email self sample_emails in
         ret (Started self))
    (fun e =>
       match e with
       | ValueError => ret (Stopped ConfigurationError)
       | _ => ret (Stopped UnexpectedError)
       end).

(** ** Writing and reading a conversation *)

(** In state [s] the thread of [addr] is [text]: the entry under the key of
    [addr] holds it, and a reply from [addr] is answered with [text] as the
    original email. *)
Definition handler_reads (s : Sys) (addr text : string) : Prop :=
  conversations (sdr s) !! lower addr = Some text
  /\ forall subject body,
       exists answer,
         In (EvChat (reply_request (sdr s) text body) answer)
            (new_events (ext s)
               (ext (final (handle_reply (Some addr) (Some subject) body s)))).

(** What either caller writes for [addr] is what the handler reads for
    [addr']: the email of a campaign iteration that was submitted, and the
    thread stored by the reply handler after a follow-up was submitted. *)
Definition written_is_read (s : Sys) (addr addr' : string) : Prop :=
  (forall subject text,
     In (Submission addr subject text true)
        (sent (new_events (ext s) (ext (final (campaign_step addr s))))) ->
     handler_reads (final (campaign_step addr s)) addr' text)
  /\ (forall subject body account subject_sent reply,
        In (EvSmtp account addr subject_sent reply true)
           (new_events (ext s)
              (ext (final (handle_reply (Some addr) (Some subject) body s)))) ->
        handler_reads (final (handle_reply (Some addr) (Some subject) body s)) addr'
          (thread_update (dict_get (conversations (sdr s)) (lower addr)) body reply)).

(** ** Flags on a server that sets them when a message is fetched *)

(** * Properties *)

(** ** The text primitives on examples *)

Example lower_mixed : lower "A@B.com" = "a@b.com".
Proof. reflexivity. Qed.

Example strip_both : strip (" Hi there" +:+ NL) = "Hi there".
Proof. reflexivity. Qed.

Example startswith_case : startswith "re: x" "Re:" = false.
Proof. reflexivity. Qed.

(** ** Running the primitives *)

Ltac run_monad :=
  unfold on_world, with_instance, set_conversation, emit, set_inbox, attr, index,
    decode, bind, try_except, gets, modify, ret, raise, final in *; cbn in *.

Lemma chat_create_run (req : chat_request) (w : World) :
  chat_create req w =
    (match chat_oracle w (log w) req with
     | Some text => Ret text
     | None => Raise ApiError
     end,
     push (EvChat req (chat_oracle w (log w) req)) w).
Proof.
  unfold chat_create. run_monad.
  destruct (chat_oracle w (log w) req); reflexivity.
Qed.

Lemma generate_cold_email_run (self : SimpleSDR) (persona recipient : string) (w : World) :
  let req := cold_email_request self persona recipient in
  generate_cold_email self persona recipient w =
    (Ret (answer_or (cold_email_fallback self recipient) (chat_oracle w (log w) req)),
     push (EvChat req (chat_oracle w (log w) req)) w).
Proof.
  intros req. subst req. unfold generate_cold_email, chat_create. run_monad.
  destruct (chat_oracle w (log w) _); reflexivity.
Qed.

Lemma generate_reply_run (self : SimpleSDR) (original_email : string)
    (body : option string) (w : World) :
  let req := reply_request self original_email body in
  generate_reply self original_email body w =
    (Ret (answer_or reply_fallback (chat_oracle w (log w) req)),
     push (EvChat req (chat_oracle w (log w) req)) w).
Proof.
  intros req. subst req. unfold generate_reply, chat_create. run_monad.
  destruct (chat_oracle w (log w) _); reflexivity.
Qed.

Lemma send_email_smtp_run (self : SimpleSDR) (to_email subject body : string) (w : World) :
  let ok := smtp_oracle w (log w) to_email subject body in
  send_email_smtp self to_email subject body w =
    (Ret ok, push (EvSmtp (email_address self) to_email subject body ok) w).
Proof. reflexivity. Qed.

Lemma select_best_email_run (self : SimpleSDR) (e0 e1 e2 : string) (rest : list string)
    (w : World) :
  let req := select_request e0 e1 e2 in
  select_best_email self (e0 :: e1 :: e2 :: rest) w =
    (Ret (answer_or e0 (chat_oracle w (log w) req)),
     push (EvChat req (chat_oracle w (log w) req)) w).
Proof.
  intros req. subst req. unfold select_best_email, chat_create. run_monad.
  destruct (chat_oracle w (log w) _); reflexivity.
Qed.

(** ** Running [handle_reply] *)

Lemma handle_reply_run (sender subject : string) (body : option string) (s : Sys) :
  let prior := dict_get (conversations (sdr s)) (lower sender) in
  let w1 := push (EvHandleReply (Some sender) (Some subject) body) (ext s) in
  let req := reply_request (sdr s) prior body in
  let answer := chat_oracle w1 (log w1) req in
  let reply := answer_or reply_fallback answer in
  let w2 := push (EvChat req answer) w1 in
  let ok := smtp_oracle w2 (log w2) sender (reply_subject subject) reply in
  let w3 := push (EvSmtp (email_address (sdr s)) sender (reply_subject subject) reply ok) w2 in
  handle_reply (Some sender) (Some subject) body s =
    (Ret tt,
     MkSys (if ok
            then with_conversation (lower sender) (thread_update prior body reply) (sdr s)
            else sdr s)
           w3).
Proof.
  intros prior w1 req answer reply w2 ok w3.
  subst prior w1 req answer reply w2 ok w3.
  unfold handle_reply, generate_reply, send_email_smtp, chat_create. run_monad.
  destruct (chat_oracle (ext s) _ _); cbn;
    destruct (smtp_oracle (ext s) _ _ _ _); reflexivity.
Qed.

Lemma handle_reply_no_sender (subject body : option string) (s : Sys) :
  handle_reply None subject body s =
    (Raise AttributeError, MkSys (sdr s) (push (EvHandleReply None subject body) (ext s))).
Proof. reflexivity. Qed.

Lemma handle_reply_no_subject (sender : string) (body : option string) (s : Sys) :
  let prior := dict_get (conversations (sdr s)) (lower sender) in
  let w1 := push (EvHandleReply (Some sender) None body) (ext s) in
  let req := reply_request (sdr s) prior body in
  handle_reply (Some sender) None body s =
    (Raise AttributeError,
     MkSys (sdr s) (push (EvChat req (chat_oracle w1 (log w1) req)) w1)).
Proof.
  intros prior w1 req. subst prior w1 req.
  unfold handle_reply, generate_reply, chat_create. run_monad.
  destruct (chat_oracle (ext s) _ _); reflexivity.
Qed.

Lemma new_events_app (w w' : World) (evs : list event) :
  log w' = log w ++ evs -> new_events w w' = evs.
Proof.
  intros H. unfold new_events. rewrite H. apply drop_app_length.
Qed.

Lemma new_events_push3 (w : World) (e1 e2 e3 : event) :
  new_events w (push e3 (push e2 (push e1 w))) = [e1; e2; e3].
Proof.
  apply new_events_app. cbn. rewrite <- !app_assoc. reflexivity.
Qed.

Lemma new_events_push2 (w : World) (e1 e2 : event) :
  new_events w (push e2 (push e1 w)) = [e1; e2].
Proof.
  apply new_events_app. cbn. rewrite <- !app_assoc. reflexivity.
Qed.

Lemma new_events_push1 (w : World) (e1 : event) :
  new_events w (push e1 w) = [e1].
Proof. apply new_events_app. reflexivity. Qed.

(** ** Facts about the text primitives *)

Lemma startswith_app (p s : string) : startswith (p +:+ s) p = true.
Proof.
  induction p as [|a p IH]; simpl; [reflexivity|].
  destruct (ascii_dec a a); [exact IH | congruence].
Qed.

Lemma startswith_split (s p : string) :
  startswith s p = true <-> exists rest, s = p +:+ rest.
Proof.
  split.
  - revert s. induction p as [|a p IH]; intros s H.
    + exists s. reflexivity.
    + destruct s as [|b s]; cbn in H; [discriminate|].
      destruct (ascii_dec a b) as [->|]; [|discriminate].
      destruct (IH s H) as [rest ->]. exists rest. reflexivity.
  - intros [rest ->]. apply startswith_app.
Qed.

Lemma dict_get_insert (d : gmap string string) (key text : string) :
  dict_get (<[key := text]> d) key = text.
Proof. unfold dict_get. rewrite lookup_insert_eq. reflexivity. Qed.

(** ** The reply handler *)

(** The events of one complete invocation of [handle_reply]. *)
Lemma handle_reply_events (from_email subject body : option string) (s : Sys) (e : event) :
  In e (new_events (ext s) (ext (final (handle_reply from_email subject body s)))) ->
  e = EvHandleReply from_email subject body
  \/ (exists sender answer,
        from_email = Some sender /\
        e = EvChat (reply_request (sdr s) (store_get (conversations (sdr s)) sender) body)
                   answer)
  \/ exists sender subject_text,
       from_email = Some sender /\ subject = Some subject_text /\
       exists reply ok,
         e = EvSmtp (email_address (sdr s)) sender (reply_subject subject_text) reply ok /\
         sdr (final (handle_reply from_email subject body s)) =
           (if ok
            then with_conversation (lower sender)
                   (thread_update (dict_get (conversations (sdr s)) (lower sender)) body reply)
                   (sdr s)
            else sdr s).
Proof.
  destruct from_email as [sender|].
  - destruct subject as [subject_text|].
    + rewrite handle_reply_run. unfold final. cbn [snd ext].
      rewrite new_events_push3. cbn [In].
      intros [<-|[<-|[<-|[]]]]; [left; reflexivity | right; left; eauto |].
      right; right. exists sender, subject_text.
      do 2 (split; [reflexivity|]). do 2 eexists.
      split; [reflexivity|]. cbn [sdr]. reflexivity.
    + rewrite handle_reply_no_subject. unfold final. cbn [snd ext].
      rewrite new_events_push2. cbn [In].
      intros [<-|[<-|[]]]; [left; reflexivity | right; left; eauto].
  - rewrite handle_reply_no_sender. unfold final. cbn [snd ext].
    rewrite new_events_push1. cbn [In].
    intros [<-|[]]. left; reflexivity.
Qed.

(** C2. Whenever the transport send made by an invocation of the reply
    handler reports failure, the conversation store after the invocation is
    the store before it; in particular the entry of the sender's address is
    what it was, and absent if it was absent. *)
Theorem send_failure_leaves_store
    (from_email subject body : option string) (s : Sys)
    (account to_email subject_sent text : string) :
  let s' := final (handle_reply from_email subject body s) in
  In (EvSmtp account to_email subject_sent text false) (new_events (ext s) (ext s')) ->
  conversations (sdr s') = conversations (sdr s)
  /\ conversations (sdr s') !! lower to_email = conversations (sdr s) !! lower to_email.
Proof.
  intros s' Hin. subst s'.
  destruct (handle_reply_events _ _ _ _ _ Hin) as [H|[(who & answer & _ & H)|H]];
    try discriminate.
  destruct H as (sender & subject_text & _ & _ & reply & ok & Hev & Hsdr).
  injection Hev as _ _ _ _ <-. rewrite Hsdr. split; reflexivity.
Qed.

Lemma send_failure_leaves_store_witness :
  conversations
    (sdr (final (handle_reply (Some "x@y.com") (Some "Hi") (Some "Tell me more")
                              (seeded false)))) !! "x@y.com"
  = Some "Hello".
Proof.
  pose proof (send_failure_leaves_store
                (Some "x@y.com") (Some "Hi") (Some "Tell me more") (seeded false)
                "sdr@complai.test" "x@y.com" "Re: Hi" reply_fallback) as H.
  cbv zeta in H.
  destruct H as [_ H].
  - vm_compute. right; right; left; reflexivity.
  - change (lower "x@y.com") with "x@y.com" in H. rewrite H. reflexivity.
Defined.

(** C4. When the send of an invocation succeeds, the new thread text of the
    sender's address is the prior thread text, then the labelled segment with
    the inbound body, then the labelled segment with the follow-up that was
    generated and sent; the prior thread text is a prefix of the new one. *)
Theorem send_success_appends_thread
    (sender subject body : string) (s : Sys) (account subject_sent reply : string) :
  let s' := final (handle_reply (Some sender) (Some subject) (Some body) s) in
  let prior := store_get (conversations (sdr s)) sender in
  In (EvSmtp account sender subject_sent reply true) (new_events (ext s) (ext s')) ->
  conversations (sdr s') !! lower sender
    = Some (prior +:+ THEIR_REPLY +:+ body +:+ MY_REPLY +:+ reply)
  /\ startswith (store_get (conversations (sdr s')) sender) prior = true
  /\ exists answer,
       In (EvChat (reply_request (sdr s) prior (Some body)) answer)
          (new_events (ext s) (ext s'))
       /\ reply = answer_or reply_fallback answer.
Proof.
  intros s' prior Hin. subst s' prior.
  pose proof (handle_reply_run sender subject (Some body) s) as Hrun.
  cbv zeta in Hrun. rewrite Hrun in *. clear Hrun.
  unfold final, store_get in *. cbn [snd ext sdr] in *.
  rewrite new_events_push3 in *.
  set (reply0 := answer_or reply_fallback _) in *.
  set (ok := smtp_oracle _ _ _ _ _) in *.
  cbn [In] in Hin.
  destruct Hin as [H|[H|[H|[]]]]; try discriminate.
  injection H as _ _ Hreply Hok. rewrite Hok. subst reply.
  cbn [with_conversation conversations]. rewrite dict_get_insert, lookup_insert_eq.
  unfold thread_update. cbn [fmt].
  split; [reflexivity|]. split; [apply startswith_app|].
  eexists. split; [cbn [In]; right; left; reflexivity|].
  reflexivity.
Qed.

Lemma send_success_appends_thread_witness :
  conversations
    (sdr (final (handle_reply (Some "X@y.com") (Some "Hi") (Some "Tell me more")
                              (seeded true)))) !! "x@y.com"
  = Some ("Hello" +:+ THEIR_REPLY +:+ "Tell me more" +:+ MY_REPLY +:+ reply_fallback).
Proof.
  pose proof (send_success_appends_thread "X@y.com" "Hi" "Tell me more" (seeded true)
                "sdr@complai.test" "Re: Hi" reply_fallback) as H.
  cbv zeta in H. destruct H as [H _].
  - vm_compute. right; right; left; reflexivity.
  - exact H.
Defined.

(** C3. The subject of the follow-up is the inbound subject with "Re: " put
    in front, unless the inbound subject begins with the three characters
    "Re:" exactly as written, in which case it is the inbound subject itself;
    that is the subject of every message the reply handler submits. *)
Theorem reply_subject_rule (subject : string) :
  ((forall rest, subject <> "Re:" +:+ rest) -> reply_subject subject = "Re: " +:+ subject)
  /\ ((exists rest, subject = "Re:" +:+ rest) -> reply_subject subject = subject)
  /\ reply_subject "Demo" = "Re: Demo"
  /\ reply_subject "Re: Demo" = "Re: Demo"
  /\ reply_subject "re: Demo" = "Re: re: Demo"
  /\ forall (from_email body : option string) (s : Sys)
            (account to_email subject_sent text : string) (ok : bool),
       In (EvSmtp account to_email subject_sent text ok)
          (new_events (ext s)
             (ext (final (handle_reply from_email (Some subject) body s)))) ->
       subject_sent = reply_subject subject.
Proof.
  split; [|split].
  - intros Hno. unfold reply_subject.
    destruct (startswith subject "Re:") eqn:Hs; [|reflexivity].
    apply startswith_split in Hs. destruct Hs as [rest ->].
    exfalso. exact (Hno rest eq_refl).
  - intros Hyes. apply startswith_split in Hyes.
    unfold reply_subject. rewrite Hyes. reflexivity.
  - do 3 (split; [reflexivity|]).
    intros from_email body s account to_email subject_sent text ok Hin.
    destruct (handle_reply_events _ _ _ _ _ Hin) as [H|[(who & answer & _ & H)|H]];
      try discriminate.
    destruct H as (sender & subject_text & _ & Hsub & reply & ok' & Hev & _).
    injection Hsub as <-. injection Hev as _ _ -> _ _. reflexivity.
Qed.

Lemma reply_subject_rule_witness :
  reply_subject "Hi" = "Re: Hi" /\ reply_subject "Re: Hi" = "Re: Hi".
Proof.
  split.
  - apply (proj1 (reply_subject_rule "Hi")).
    intros rest H. vm_compute in H. discriminate H.
  - apply (proj1 (proj2 (reply_subject_rule "Re: Hi"))).
    exists " Hi". reflexivity.
Defined.

(** ** Letter case *)

Lemma lower_char_nat (c : ascii) :
  nat_of_ascii (lower_char c)
  = if is_upper c then nat_of_ascii c + 32 else nat_of_ascii c.
Proof.
  unfold lower_char. destruct (is_upper c) eqn:Hu; [|reflexivity].
  apply nat_ascii_embedding. unfold is_upper in Hu. cbv zeta in Hu.
  apply andb_true_iff in Hu. destruct Hu as [_ Hu].
  apply Nat.leb_le in Hu. lia.
Qed.

Lemma nat_of_ascii_inj (a b : ascii) : nat_of_ascii a = nat_of_ascii b -> a = b.
Proof.
  intros H. rewrite <- (ascii_nat_embedding a), <- (ascii_nat_embedding b), H.
  reflexivity.
Qed.

(** Two characters that are the same letter have the same lower case. *)
Lemma same_letter_lower (a b : ascii) :
  same_letter a b = true -> lower_char a = lower_char b.
Proof.
  assert (Hup : forall c, is_upper c = true <->
                          65 <= nat_of_ascii c /\ nat_of_ascii c <= 90).
  { intros c. unfold is_upper. cbv zeta.
    rewrite andb_true_iff, !Nat.leb_le. reflexivity. }
  intros H. apply nat_of_ascii_inj. rewrite !lower_char_nat.
  unfold same_letter in H. rewrite !orb_true_iff, !andb_true_iff in H.
  destruct H as [[H|[Ha H]]|[Hb H]].
  - apply Ascii.eqb_eq in H. subst b. reflexivity.
  - apply Nat.eqb_eq in H. rewrite Ha. apply Hup in Ha.
    destruct (is_upper b) eqn:Hb; [apply Hup in Hb; lia | lia].
  - apply Nat.eqb_eq in H. rewrite Hb. apply Hup in Hb.
    destruct (is_upper a) eqn:Ha; [apply Hup in Ha; lia | lia].
Qed.

(** Strings that differ only in the case of letters have the same key. *)
Lemma same_ignoring_case_lower (a b : string) :
  same_ignoring_case a b = true -> lower a = lower b.
Proof.
  revert b. induction a as [|x a IH]; intros [|y b]; cbn; try congruence.
  intros H. apply andb_true_iff in H. destruct H as [Hxy Hab].
  rewrite (same_letter_lower _ _ Hxy), (IH _ Hab). reflexivity.
Qed.

(** ** The draft generator *)

Lemma cold_email_fallback_nonempty (self : SimpleSDR) (recipient : string) :
  cold_email_fallback self recipient <> EmptyString.
Proof. unfold cold_email_fallback. simpl. discriminate. Qed.

(** C6. [generate_cold_email] returns a text and never raises, whatever the
    persona and the recipient title; when the call to the model fails the
    text is the canned email, which depends only on the company data and the
    recipient title and is not empty. *)
Theorem generate_cold_email_never_blocks
    (self : SimpleSDR) (persona recipient : string) (w : World) :
  exists text w',
    generate_cold_email self persona recipient w = (Ret text, w')
    /\ (chat_oracle w (log w) (cold_email_request self persona recipient) = None ->
        text = cold_email_fallback self recipient
        /\ text <> EmptyString
        /\ 0 < String.length text).
Proof.
  do 2 eexists. split; [apply generate_cold_email_run|].
  intros ->. cbn [answer_or]. split; [reflexivity|].
  split; [apply cold_email_fallback_nonempty|].
  unfold cold_email_fallback. simpl. lia.
Qed.

Lemma generate_cold_email_never_blocks_witness :
  fst (generate_cold_email me "engaging" "Startup CEO" (offline true))
  = Ret (cold_email_fallback me "Startup CEO").
Proof.
  destruct (generate_cold_email_never_blocks me "engaging" "Startup CEO" (offline true))
    as (text & w' & Hrun & Hfail).
  destruct Hfail as (-> & _ & _); [reflexivity|].
  rewrite Hrun. reflexivity.
Defined.

(** C7, as the code has it. Given three candidates, [select_best_email]
    returns the answer of the model with surrounding whitespace removed,
    whether or not that is one of the candidates, and returns the first
    candidate unchanged when the call to the model fails. *)
Theorem select_best_email_result (self : SimpleSDR) (e0 e1 e2 : string) (w : World) :
  exists w',
    select_best_email self [e0; e1; e2] w
    = (Ret (match chat_oracle w (log w) (select_request e0 e1 e2) with
            | Some text => strip text
            | None => e0
            end),
       w').
Proof. eexists. apply select_best_email_run. Qed.

(** C7 as written fails when the model answers with a text of its own. *)
Lemma select_best_email_not_a_candidate :
  fst (select_best_email me ["a"; "b"; "c"] (parrot "zzz" true)) = Ret "zzz"
  /\ ~ In "zzz" ["a"; "b"; "c"].
Proof.
  split; [reflexivity|]. cbn [In]. intros [H|[H|[H|[]]]]; discriminate H.
Qed.

(** C10. With fewer than three candidates [select_best_email] raises
    [IndexError] before any call to the model is made, so the fallback of
    the guarded call is never reached; with three candidates it returns. *)
Theorem select_best_email_needs_three (self : SimpleSDR) (emails : list string) (w : World) :
  (length emails < 3 -> select_best_email self emails w = (Raise IndexError, w))
  /\ (length emails = 3 ->
      exists text w', select_best_email self emails w = (Ret text, w')).
Proof.
  split.
  - intros Hlen.
    destruct emails as [|e0 [|e1 [|e2 rest]]]; try reflexivity.
    cbn in Hlen. lia.
  - intros Hlen.
    destruct emails as [|e0 [|e1 [|e2 [|e3 rest]]]]; try discriminate Hlen.
    do 2 eexists. apply select_best_email_run.
Qed.

Lemma select_best_email_needs_three_witness :
  select_best_email me ["only"; "two"] (offline true) = (Raise IndexError, offline true)
  /\ exists text w', select_best_email me ["a"; "b"; "c"] (offline true) = (Ret text, w').
Proof.
  split.
  - apply (proj1 (select_best_email_needs_three me ["only"; "two"] (offline true))).
    cbn. lia.
  - apply (proj2 (select_best_email_needs_three me ["a"; "b"; "c"] (offline true))).
    reflexivity.
Defined.

(** Longer lists do not raise either: only the first three are read. *)
Lemma select_best_email_longer (self : SimpleSDR) (emails : list string) (w : World) :
  3 <= length emails ->
  exists text w', select_best_email self emails w = (Ret text, w').
Proof.
  intros Hlen.
  destruct emails as [|e0 [|e1 [|e2 rest]]]; cbn in Hlen; try lia.
  do 2 eexists. apply select_best_email_run.
Qed.

(** ** Which entries the campaign and the reply handler write *)

Section Frames.

Variable K : string -> Prop.

Lemma outside_refl (s : Sys) : outside K s s.
Proof. intros key _. reflexivity. Qed.

Lemma outside_trans (s1 s2 s3 : Sys) :
  outside K s1 s2 -> outside K s2 s3 -> outside K s1 s3.
Proof. intros H12 H23 key Hk. rewrite (H23 key Hk). apply H12, Hk. Qed.

Lemma frames_ret {A : Type} (a : A) : frames K (ret a).
Proof. intros s. apply outside_refl. Qed.

Lemma frames_gets {A : Type} (f : Sys -> A) : frames K (gets f).
Proof. intros s. apply outside_refl. Qed.

Lemma frames_on_world {A : Type} (m : M World A) : frames K (on_world m).
Proof.
  intros s key _. unfold on_world, final.
  destruct (m (ext s)) as [r w]. reflexivity.
Qed.

Lemma frames_bind {A B : Type} (m : M Sys A) (k : A -> M Sys B) :
  frames K m -> (forall a, frames K (k a)) -> frames K (bind m k).
Proof.
  intros Hm Hk s. specialize (Hm s). unfold bind, final in *.
  destruct (m s) as [[a|e] s1]; cbn [snd] in *.
  - eapply outside_trans; [exact Hm|]. apply (Hk a s1).
  - exact Hm.
Qed.

Lemma frames_set_conversation (key text : string) :
  K key -> frames K (set_conversation key text).
Proof.
  intros Hkey s key' Hout. unfold set_conversation, modify, final. cbn.
  apply lookup_insert_ne. intros ->. exact (Hout Hkey).
Qed.

Lemma frames_for_each {A : Type} (xs : list A) (body : A -> M Sys unit) :
  (forall x, In x xs -> frames K (body x)) -> frames K (for_each xs body).
Proof.
  induction xs as [|x xs IH]; intros Hbody; cbn [for_each].
  - apply frames_ret.
  - apply frames_bind.
    + apply Hbody. left. reflexivity.
    + intros _. apply IH. intros y Hy. apply Hbody. right. exact Hy.
Qed.

End Frames.

Lemma frames_campaign_step (K : string -> Prop) (recipient : string) :
  K (lower recipient) -> frames K (campaign_step recipient).
Proof.
  intros Hk. unfold campaign_step.
  apply frames_bind; [apply frames_gets | intros self].
  apply frames_bind; [apply frames_on_world | intros emails].
  apply frames_bind; [apply frames_on_world | intros best_email].
  apply frames_bind; [apply frames_on_world | intros subject].
  apply frames_bind; [apply frames_on_world | intros success].
  apply frames_bind; [| intros _; apply frames_on_world].
  destruct success; [apply frames_set_conversation, Hk | apply frames_ret].
Qed.

(** The campaign writes the store only under the lower-cased recipients. *)
Lemma frames_campaign (recipients : list string) :
  frames (fun key => exists r, In r recipients /\ key = lower r)
         (run_cold_email_campaign recipients).
Proof.
  apply frames_for_each. intros r Hr. apply frames_campaign_step.
  exists r. split; [exact Hr | reflexivity].
Qed.

(** ** The two entry points of the reply handler *)

Lemma SimpleSDR_init_test (mb : Mailbox) (ok : bool) :
  SimpleSDR_init (offline_with mb ok) = (Ret me, offline_with mb ok).
Proof. reflexivity. Qed.

(** The route never touches the long-lived instance. *)
Lemma webhook_keeps_instance (data : gmap string string) (s : Sys) :
  sdr (final (on_world (handle_webhook_reply data) s)) = sdr s.
Proof.
  unfold on_world, final. destruct (handle_webhook_reply data (ext s)). reflexivity.
Qed.

(** C1 on one reply. The store holds the thread "Hello" for x@y.com and the
    same reply arrives once through the mailbox and once through the route.
    The polling path asks for a follow-up to "Hello" and extends the thread;
    the route asks for a follow-up to the empty thread and leaves the store
    as it was. *)
Theorem webhook_path_diverges :
  let s := seeded_with (inbox_with false reply_mail) true in
  let polled := final (check_for_replies s) in
  let pushed := final (on_world (handle_webhook_reply reply_json) s) in
  dict_get (conversations (sdr polled)) "x@y.com"
    = "Hello" +:+ THEIR_REPLY +:+ "Tell me more" +:+ MY_REPLY +:+ reply_fallback
  /\ dict_get (conversations (sdr pushed)) "x@y.com" = "Hello"
  /\ In (EvChat (reply_request me "Hello" (Some "Tell me more")) None)
        (log (ext polled))
  /\ In (EvChat (reply_request me EmptyString (Some "Tell me more")) None)
        (log (ext pushed))
  /\ handled (log (ext polled)) = handled (log (ext pushed)).
Proof.
  cbv zeta. split; [vm_compute; reflexivity|]. split; [vm_compute; reflexivity|].
  split; [vm_compute; right; right; left; reflexivity|].
  split; [vm_compute; right; left; reflexivity|].
  vm_compute. reflexivity.
Qed.

(** ** The reply monitor *)

(** On a server where only the explicit store sets the flag: the mailbox
    holds one unseen message without a Subject header, [handle_reply] raises
    on it before the flag is stored, so the message is still unseen after
    the cycle and the next cycle hands it to the handler again. *)
Example unmarked_message_is_handled_again :
  let s := MkSys me (offline_with (inbox_with false no_subject_mail) true) in
  let s' := final (monitor 2 s) in
  handled (log (ext s'))
    = [(Some "x@y.com", None, Some "Tell me more");
       (Some "x@y.com", None, Some "Tell me more")]
  /\ unseen (inbox (ext s')) = [1]
  /\ fst (handle_reply (Some "x@y.com") None (Some "Tell me more") s)
     = Raise AttributeError.
Proof.
  cbv zeta. split; [vm_compute; reflexivity|]. split; vm_compute; reflexivity.
Qed.

(** [handle_reply] never touches the mailbox. *)
Lemma handle_reply_inbox (from_email subject body : option string) (s : Sys) :
  inbox (ext (final (handle_reply from_email subject body s))) = inbox (ext s).
Proof.
  destruct from_email as [sender|]; [destruct subject as [subject_text|]|].
  - rewrite handle_reply_run. reflexivity.
  - rewrite handle_reply_no_subject. reflexivity.
  - rewrite handle_reply_no_sender. reflexivity.
Qed.

Lemma bind_ret_eq {S A B : Type} (m : M S A) (k : A -> M S B) (s s' : S) (a : A) :
  m s = (Ret a, s') -> bind m k s = k a s'.
Proof. intros H. unfold bind. rewrite H. reflexivity. Qed.

Lemma bind_raise_eq {S A B : Type} (m : M S A) (k : A -> M S B) (s s' : S) (e : exn) :
  m s = (Raise e, s') -> bind m k s = (Raise e, s').
Proof. intros H. unfold bind. rewrite H. reflexivity. Qed.

Lemma extract_body_state (m : message) (s : Sys) :
  snd (extract_body m s) = s.
Proof.
  unfold extract_body, decode.
  destruct (msg_payload m) as [[t|]|parts]; try reflexivity.
  destruct (find is_text_plain parts) as [p|]; [|reflexivity].
  destruct (part_text p); reflexivity.
Qed.

Lemma fetch_without_flag (id : nat) (s : Sys) :
  fetch_sets_seen (inbox (ext s)) = false ->
  on_world (imap_fetch id) s
  = (Ret (msg <$> find (fun it => Nat.eqb (msg_id it) id) (items (inbox (ext s)))),
     MkSys (sdr s) (push (EvImapFetch id) (ext s))).
Proof.
  intros Hflag. unfold imap_fetch. run_monad. rewrite Hflag.
  destruct (find _ (items (inbox (ext s)))); reflexivity.
Qed.

(** On a server where only the explicit store sets the flag, a message
    whose processing raises leaves the mailbox as it was. *)
Lemma process_message_raise_keeps_inbox (id : nat) (s : Sys) (e : exn) :
  fetch_sets_seen (inbox (ext s)) = false ->
  fst (process_message id s) = Raise e ->
  inbox (ext (final (process_message id s))) = inbox (ext s).
Proof.
  intros Hflag. unfold process_message.
  rewrite (bind_ret_eq _ _ _ _ _ (fetch_without_flag id s Hflag)).
  destruct (find _ (items (inbox (ext s)))) as [it|]; cbn [fmap option_fmap option_map];
    [|discriminate].
  set (s1 := MkSys (sdr s) (push (EvImapFetch id) (ext s))).
  pose proof (extract_body_state (msg it) s1) as Hx.
  destruct (extract_body (msg it) s1) as [[body|e1] s2] eqn:Hbody;
    cbn [snd] in Hx; subst s2.
  - rewrite (bind_ret_eq _ _ _ _ _ Hbody).
    pose proof (handle_reply_inbox (msg_from (msg it)) (msg_subject (msg it))
                  (Some body) s1) as Hin.
    destruct (handle_reply (msg_from (msg it)) (msg_subject (msg it)) (Some body) s1)
      as [[u|e2] s3] eqn:Hh; unfold final in Hin; cbn [snd] in Hin.
    + rewrite (bind_ret_eq _ _ _ _ _ Hh). discriminate.
    + rewrite (bind_raise_eq _ _ _ _ _ Hh). intros _. exact Hin.
  - rewrite (bind_raise_eq _ _ _ _ _ Hbody). reflexivity.
Qed.

(** The same two cycles on a server that flags a message when it is
    fetched: the message is handed to the handler once. *)
Example flagging_server_handles_once :
  let s := MkSys me (offline_with (inbox_with true no_subject_mail) true) in
  let s' := final (monitor 2 s) in
  handled (log (ext s')) = [(Some "x@y.com", None, Some "Tell me more")]
  /\ unseen (inbox (ext s')) = [].
Proof. cbv zeta. split; vm_compute; reflexivity. Qed.

(** A message whose handling returns is flagged by the explicit store. *)
Example handled_message_is_flagged :
  let s := seeded_with (inbox_with false reply_mail) true in
  let s' := final (monitor 2 s) in
  handled (log (ext s')) = [(Some "x@y.com", Some "Hi", Some "Tell me more")]
  /\ unseen (inbox (ext s')) = [].
Proof. cbv zeta. split; vm_compute; reflexivity. Qed.

Lemma SimpleSDR_init_fresh (w w' : World) (r : outcome SimpleSDR) :
  SimpleSDR_init w = (r, w') ->
  w' = w /\ forall self, r = Ret self -> conversations self = ∅.
Proof.
  unfold SimpleSDR_init. run_monad.
  destruct (environ w !! "OPENAI_API_KEY") as [[|c key]|];
    [| destruct (py_int _) as [port|] |]; intros H;
    injection H as <- <-; split; try reflexivity; intros self Hself;
    try discriminate Hself.
  injection Hself as <-. reflexivity.
Qed.

Lemma new_events_none (w : World) : new_events w w = [].
Proof. apply new_events_app. rewrite app_nil_r. reflexivity. Qed.

(** Whatever the request and the state of the program, the follow-up the
    route asks the model for is a follow-up to the empty thread. *)
Lemma webhook_reads_empty_thread (data : gmap string string) (w : World)
    (req : chat_request) (answer : option string) :
  In (EvChat req answer) (new_events w (final (handle_webhook_reply data w))) ->
  exists self, req = reply_request self EmptyString (data !! "body").
Proof.
  unfold handle_webhook_reply, try_except, final.
  destruct (SimpleSDR_init w) as [r w0] eqn:Hinit.
  destruct (SimpleSDR_init_fresh _ _ _ Hinit) as [-> Hfresh].
  destruct r as [self|e].
  - rewrite (bind_ret_eq _ _ _ _ _ Hinit).
    pose proof (handle_reply_events (data !! "from") (data !! "subject") (data !! "body")
                  (MkSys self w) (EvChat req answer)) as Hev.
    unfold bind, with_instance, final in *. cbn [ext] in Hev.
    destruct (handle_reply _ _ _ (MkSys self w)) as [[u|e] s2]; cbn [snd] in *;
      intros Hin; destruct (Hev Hin) as [H|[(sender & a & _ & H)|H]];
      try discriminate H.
    + injection H as -> _. exists self. cbn [sdr]. unfold store_get.
      rewrite (Hfresh self eq_refl). reflexivity.
    + destruct H as (? & ? & _ & _ & ? & ? & H & _). discriminate H.
    + injection H as -> _. exists self. cbn [sdr]. unfold store_get.
      rewrite (Hfresh self eq_refl). reflexivity.
    + destruct H as (? & ? & _ & _ & ? & ? & H & _). discriminate H.
  - rewrite (bind_raise_eq _ _ _ _ _ Hinit). cbn [snd ret].
    rewrite new_events_none. intros [].
Qed.

(** * Further properties of the module *)

(** ** Missing values in [handle_reply] *)

(** [handle_reply] returns exactly when the sender and the subject are both
    present. Otherwise it raises [AttributeError], nothing is submitted and
    the store is unchanged; a missing sender is found before the model is
    asked, a missing subject only after. *)
Theorem handle_reply_raises_on_missing
    (from_email subject body : option string) (s : Sys) :
  let r := handle_reply from_email subject body s in
  (fst r = Ret tt <-> is_Some from_email /\ is_Some subject)
  /\ (fst r <> Ret tt ->
      fst r = Raise AttributeError
      /\ sdr (final r) = sdr s
      /\ sent (new_events (ext s) (ext (final r))) = []
      /\ length (asked (new_events (ext s) (ext (final r))))
         = match from_email with Some _ => 1 | None => 0 end).
Proof.
  cbv zeta. destruct from_email as [sender|]; [destruct subject as [subject_text|]|].
  - rewrite handle_reply_run. cbn [fst]. split.
    + split; [intros _; split; eauto | reflexivity].
    + intros H. exfalso. apply H. reflexivity.
  - rewrite handle_reply_no_subject. unfold final. cbn [fst snd ext sdr].
    rewrite new_events_push2. split.
    + split; [discriminate | intros [_ [x Hx]]; discriminate Hx].
    + intros _. repeat split.
  - rewrite handle_reply_no_sender. unfold final. cbn [fst snd ext sdr].
    rewrite new_events_push1. split.
    + split; [discriminate | intros [[x Hx] _]; discriminate Hx].
    + intros _. repeat split.
Qed.

Lemma handle_reply_raises_on_missing_witness :
  fst (handle_reply (Some "x@y.com") None (Some "Tell me more") (seeded true))
  = Raise AttributeError
  /\ length (asked (new_events (ext (seeded true))
       (ext (final (handle_reply (Some "x@y.com") None (Some "Tell me more")
                                 (seeded true)))))) = 1.
Proof.
  pose proof (handle_reply_raises_on_missing (Some "x@y.com") None (Some "Tell me more")
                (seeded true)) as H.
  cbv zeta in H. destruct H as [_ H].
  destruct H as (H1 & _ & _ & H2).
  - vm_compute. discriminate.
  - split; [exact H1 | exact H2].
Defined.

(** ** The route *)

Example py_int_accepts :
  py_int "587" = Some 587%Z /\ py_int " 5_87 " = Some 587%Z
  /\ py_int "+25" = Some 25%Z /\ py_int "-1" = Some (-1)%Z.
Proof. repeat split. Qed.

Example py_int_rejects :
  py_int "abc" = None /\ py_int EmptyString = None /\ py_int "5__87" = None
  /\ py_int "_587" = None /\ py_int "587_" = None /\ py_int "+ 5" = None.
Proof. repeat split. Qed.

(** A port setting that is not a number stops the constructor, and the
    route answers 500 whatever the request. *)
Example bad_port_stops_route :
  fst (handle_webhook_reply reply_json
         (MkWorld (<["SMTP_PORT" := "abc"]> test_environ)
                  (fun _ _ => None) (fun _ _ _ _ => true) quiet_inbox []))
  = Ret (Http500 ValueError).
Proof. vm_compute. reflexivity. Qed.

Lemma SimpleSDR_init_run (w : World) :
  (init_succeeds w ->
   SimpleSDR_init w
   = (Ret (MkSDR (default "your-email@gmail.com" (environ w !! "EMAIL_ADDRESS"))
                 "ComplAI" "AI-powered SOC2 compliance automation" ∅), w))
  /\ (~ init_succeeds w -> SimpleSDR_init w = (Raise ValueError, w)).
Proof.
  unfold init_succeeds, api_key_set, port_parses, SimpleSDR_init. run_monad.
  destruct (environ w !! "OPENAI_API_KEY") as [[|c key]|];
    [| destruct (py_int _) as [port|] |]; split; try reflexivity.
  - intros [(c & key & H) _]. discriminate H.
  - intros H. exfalso. apply H. split; eauto.
  - intros [_ [port H]]. discriminate H.
  - intros [(c & key & H) _]. discriminate H.
Qed.

Lemma init_succeeds_dec (w : World) : init_succeeds w \/ ~ init_succeeds w.
Proof.
  unfold init_succeeds, api_key_set, port_parses.
  destruct (environ w !! "OPENAI_API_KEY") as [[|c key]|].
  - right. intros [(c & key & H) _]. discriminate H.
  - destruct (py_int _) as [port|].
    + left. split; eauto.
    + right. intros [_ [port H]]. discriminate H.
  - right. intros [(c & key & H) _]. discriminate H.
Qed.



(** ** The other generators *)

Lemma generate_subject_run (self : SimpleSDR) (best_email : string) (w : World) :
  let req := subject_request best_email in
  generate_subject self best_email w =
    (Ret (match chat_oracle w (log w) req with
          | Some text => remove_char quote_char (strip text)
          | None => "Quick question about " +:+ company_name self
          end),
     push (EvChat req (chat_oracle w (log w) req)) w).
Proof.
  intros req. subst req. unfold generate_subject, chat_create. run_monad.
  destruct (chat_oracle w (log w) _); reflexivity.
Qed.

Lemma remove_char_absent (c : ascii) (s : string) :
  has_char c (remove_char c s) = false.
Proof.
  induction s as [|a r IH]; cbn; [reflexivity|].
  destruct (ascii_dec a c) as [->|Hne]; [exact IH|].
  cbn. destruct (ascii_dec a c); [contradiction | exact IH].
Qed.

(** [generate_reply] never raises. When the model fails it returns the
    canned sentence, which is not empty and does not depend on the thread or
    on the reply it answers. *)
Theorem generate_reply_never_blocks
    (self : SimpleSDR) (original_email : string) (body : option string) (w : World) :
  exists text w',
    generate_reply self original_email body w = (Ret text, w')
    /\ (chat_oracle w (log w) (reply_request self original_email body) = None ->
        text = reply_fallback /\ 0 < String.length text).
Proof.
  do 2 eexists. split; [apply generate_reply_run|].
  intros ->. cbn [answer_or]. split; [reflexivity|]. vm_compute. lia.
Qed.

Lemma generate_reply_never_blocks_witness :
  fst (generate_reply me "Hello" (Some "Tell me more") (offline true))
  = Ret reply_fallback.
Proof.
  destruct (generate_reply_never_blocks me "Hello" (Some "Tell me more") (offline true))
    as (text & w' & Hrun & Hfail).
  destruct Hfail as [-> _]; [reflexivity|].
  rewrite Hrun. reflexivity.
Defined.

(** [generate_subject] never raises and the subject it returns never
    contains a double quote when it comes from the model; when the model
    fails the subject is "Quick question about " followed by the company
    name. *)
Theorem generate_subject_result (self : SimpleSDR) (best_email : string) (w : World) :
  exists subject w',
    generate_subject self best_email w = (Ret subject, w')
    /\ (chat_oracle w (log w) (subject_request best_email) = None ->
        subject = "Quick question about " +:+ company_name self)
    /\ (chat_oracle w (log w) (subject_request best_email) <> None ->
        has_char quote_char subject = false).
Proof.
  do 2 eexists. split; [apply generate_subject_run|]. split.
  - intros ->. reflexivity.
  - destruct (chat_oracle w (log w) _) as [text|]; [|congruence].
    intros _. apply remove_char_absent.
Qed.

Lemma generate_subject_result_witness :
  fst (generate_subject me "body" (offline true)) = Ret "Quick question about ComplAI"
  /\ exists subject,
       fst (generate_subject me "body"
              (parrot (String quote_char "SOC2 in a week" +:+ String quote_char EmptyString)
                      true))
       = Ret subject
       /\ has_char quote_char subject = false.
Proof.
  split.
  - destruct (generate_subject_result me "body" (offline true))
      as (subject & w' & Hrun & Hfail & _).
    rewrite Hrun, Hfail; reflexivity.
  - destruct (generate_subject_result me "body"
                (parrot (String quote_char "SOC2 in a week"
                         +:+ String quote_char EmptyString) true))
      as (subject & w' & Hrun & _ & Hclean).
    exists subject. split; [rewrite Hrun; reflexivity|].
    apply Hclean. discriminate.
Defined.

(** [select_best_email] reads the first three candidates only: whatever
    follows them changes neither the request to the model nor the result. *)
Theorem select_best_email_ignores_rest
    (self : SimpleSDR) (e0 e1 e2 : string) (rest : list string) (w : World) :
  select_best_email self (e0 :: e1 :: e2 :: rest) w
  = select_best_email self [e0; e1; e2] w.
Proof. rewrite !select_best_email_run. reflexivity. Qed.

(** ** Reading the body of a message *)

(** The body of a multipart message is the text of its first text/plain
    part, whatever comes after it; a multipart message without such a part
    has the empty body. Neither touches the state. *)
Theorem extract_body_first_plain
    (from_email subject : option string) (before after : list part) (p : part) (s : Sys) :
  (forallb (fun q => negb (is_text_plain q)) before = true ->
   is_text_plain p = true ->
   extract_body (Message from_email subject (Multipart (before ++ p :: after))) s
   = decode (part_text p) s)
  /\ (forallb (fun q => negb (is_text_plain q)) before = true ->
      extract_body (Message from_email subject (Multipart before)) s
      = (Ret EmptyString, s)).
Proof.
  unfold extract_body. cbn [msg_payload].
  induction before as [|q before IH]; cbn [forallb app find].
  - split; [intros _ ->; reflexivity | reflexivity].
  - destruct (is_text_plain q); cbn [negb andb]; [split; discriminate|].
    exact IH.
Qed.

Lemma extract_body_first_plain_witness :
  extract_body
    (Message (Some "x@y.com") (Some "Hi")
       (Multipart [Part "multipart/alternative" None; Part "text/html" (Some "<p>Hi</p>");
                   Part "text/plain" (Some "Hi"); Part "text/plain" (Some "again")]))
    (seeded true)
  = (Ret "Hi", seeded true).
Proof.
  apply (proj1 (extract_body_first_plain (Some "x@y.com") (Some "Hi")
                  [Part "multipart/alternative" None; Part "text/html" (Some "<p>Hi</p>")]
                  [Part "text/plain" (Some "again")]
                  (Part "text/plain" (Some "Hi")) (seeded true)));
    reflexivity.
Defined.

(** ** The campaign *)

Lemma on_world_eq {A : Type} (m : M World A) (s : Sys) (r : outcome A) (w : World) :
  m (ext s) = (r, w) -> on_world m s = (r, MkSys (sdr s) w).
Proof. intros H. unfold on_world. rewrite H. reflexivity. Qed.

Lemma push_log_more (e : event) (evs : list event) (w : World) :
  push e (log_more evs w) = log_more (evs ++ [e]) w.
Proof. unfold push, log_more. cbn. rewrite <- app_assoc. reflexivity. Qed.

Lemma push_as_log_more (e : event) (w : World) : push e w = log_more [e] w.
Proof. reflexivity. Qed.

Lemma map_M_cons_run {S A B : Type} (f : A -> M S B) (x : A) (xs : list A)
    (y : B) (ys : list B) (s s1 s2 : S) :
  f x s = (Ret y, s1) ->
  map_M f xs s1 = (Ret ys, s2) ->
  map_M f (x :: xs) s = (Ret (y :: ys), s2).
Proof.
  intros Hx Hxs. cbn [map_M].
  rewrite (bind_ret_eq _ _ _ _ _ Hx), (bind_ret_eq _ _ _ _ _ Hxs). reflexivity.
Qed.

Lemma campaign_step_run (recipient : string) (s : Sys) :
  exists a,
    campaign_step recipient s = (Ret tt, step_state recipient a s)
    /\ answered (ext s) (ans_professional a)
    /\ answered (ext s) (ans_engaging a)
    /\ answered (ext s) (ans_concise a)
    /\ answered (ext s) (ans_select a)
    /\ answered (ext s) (ans_subject a).
Proof.
  destruct s as [self w].
  set (a1 := chat_oracle w (log w) (cold_email_request self "professional" "CEO")).
  set (w1 := push (EvChat (cold_email_request self "professional" "CEO") a1) w).
  set (a2 := chat_oracle w1 (log w1) (cold_email_request self "engaging" "CEO")).
  set (w2 := push (EvChat (cold_email_request self "engaging" "CEO") a2) w1).
  set (a3 := chat_oracle w2 (log w2) (cold_email_request self "concise" "CEO")).
  set (w3 := push (EvChat (cold_email_request self "concise" "CEO") a3) w2).
  set (d1 := step_draft self a1). set (d2 := step_draft self a2).
  set (d3 := step_draft self a3).
  set (a4 := chat_oracle w3 (log w3) (select_request d1 d2 d3)).
  set (w4 := push (EvChat (select_request d1 d2 d3) a4) w3).
  set (best := answer_or d1 a4).
  set (a5 := chat_oracle w4 (log w4) (subject_request best)).
  set (w5 := push (EvChat (subject_request best) a5) w4).
  set (subject := match a5 with
                  | Some text => remove_char quote_char (strip text)
                  | None => "Quick question about " +:+ company_name self
                  end).
  set (ok := smtp_oracle w5 (log w5) recipient subject best).
  exists (StepAnswers a1 a2 a3 a4 a5 ok).
  split; [|repeat split; eexists _, _; reflexivity].
  assert (Hdrafts :
    map_M (fun persona => generate_cold_email self persona "CEO") campaign_personas w
    = (Ret [d1; d2; d3], w3)).
  { unfold campaign_personas.
    apply map_M_cons_run with (s1 := w1); [apply generate_cold_email_run|].
    apply map_M_cons_run with (s1 := w2); [apply generate_cold_email_run|].
    apply map_M_cons_run with (s1 := w3); [apply generate_cold_email_run|].
    reflexivity. }
  unfold campaign_step.
  rewrite (bind_ret_eq (gets sdr) _ (MkSys self w) (MkSys self w) self eq_refl).
  cbv beta.
  rewrite (bind_ret_eq _ _ _ _ _ (on_world_eq _ (MkSys self w) _ _ Hdrafts)).
  cbv beta. cbn [sdr].
  rewrite (bind_ret_eq _ _ _ _ _
             (on_world_eq _ (MkSys self w3) _ _ (select_best_email_run self d1 d2 d3 [] w3))).
  cbv beta. fold a4 w4 best. cbn [sdr].
  rewrite (bind_ret_eq _ _ _ _ _
             (on_world_eq _ (MkSys self w4) _ _ (generate_subject_run self best w4))).
  cbv beta. fold a5 w5 subject. cbn [sdr].
  rewrite (bind_ret_eq _ _ _ _ _
             (on_world_eq _ (MkSys self w5) _ _
                (send_email_smtp_run self recipient subject best w5))).
  cbv beta. fold ok. cbn [sdr].
  unfold step_state, step_events, step_best, step_subject. cbn [sdr ext ans_sent
    ans_professional ans_engaging ans_concise ans_select ans_subject].
  fold d1 d2 d3 best subject.
  subst w5 w4 w3 w2 w1. rewrite !push_as_log_more.
  destruct ok; unfold bind, set_conversation, modify, ret, on_world, emit; cbn;
    unfold log_more, push; cbn; rewrite <- !app_assoc; reflexivity.
Qed.

Lemma sent_app (l1 l2 : list event) : sent (l1 ++ l2) = sent l1 ++ sent l2.
Proof.
  induction l1 as [|e l1 IH]; [reflexivity|].
  destruct e; cbn; rewrite ?IH; reflexivity.
Qed.

Lemma sleeps_app (l1 l2 : list event) : sleeps (l1 ++ l2) = sleeps l1 ++ sleeps l2.
Proof.
  induction l1 as [|e l1 IH]; [reflexivity|].
  destruct e; cbn; rewrite ?IH; reflexivity.
Qed.

Lemma asked_app (l1 l2 : list event) : asked (l1 ++ l2) = asked l1 ++ asked l2.
Proof.
  induction l1 as [|e l1 IH]; [reflexivity|].
  destruct e; cbn; rewrite ?IH; reflexivity.
Qed.

Lemma fetched_app (l1 l2 : list event) : fetched (l1 ++ l2) = fetched l1 ++ fetched l2.
Proof.
  induction l1 as [|e l1 IH]; [reflexivity|].
  destruct e; cbn; rewrite ?IH; reflexivity.
Qed.

(** The whole campaign as a sequence of iterations: it returns, and its log
    is the log of the iterations one after the other. *)
Lemma campaign_trace (recipients : list string) (s : Sys) :
  exists s' evs,
    run_cold_email_campaign recipients s = (Ret tt, s')
    /\ log (ext s') = log (ext s) ++ evs
    /\ map sub_to (sent evs) = recipients
    /\ sleeps evs = repeat 30 (length recipients)
    /\ length (asked evs) = 5 * length recipients.
Proof.
  revert s. induction recipients as [|r rs IH]; intros s.
  - exists s, []. cbn. rewrite app_nil_r. repeat split.
  - destruct (campaign_step_run r s) as (a & Hstep & _).
    destruct (IH (step_state r a s)) as (s' & evs & Hrun & Hlog & Hto & Hsl & Hask).
    exists s', (step_events (sdr s) r a ++ evs).
    unfold run_cold_email_campaign in *. cbn [for_each].
    rewrite (bind_ret_eq _ _ _ _ _ Hstep). split; [exact Hrun|].
    split; [rewrite Hlog; cbn; rewrite <- app_assoc; reflexivity|].
    rewrite sent_app, sleeps_app, asked_app, map_app, Hto, Hsl, length_app, Hask.
    cbn. repeat split. lia.
Qed.

(** The campaign never raises. It submits exactly one email per recipient,
    to the recipients in the order of the list, asks the model five times
    per recipient, and pauses 30 seconds after every recipient, the last one
    and the failed ones included. *)
Theorem campaign_one_submission_each (recipients : list string) (s : Sys) :
  let r := run_cold_email_campaign recipients s in
  let evs := new_events (ext s) (ext (final r)) in
  fst r = Ret tt
  /\ map sub_to (sent evs) = recipients
  /\ sleeps evs = repeat 30 (length recipients)
  /\ length (asked evs) = 5 * length recipients.
Proof.
  cbv zeta.
  destruct (campaign_trace recipients s) as (s' & evs & Hrun & Hlog & H).
  rewrite Hrun. unfold final. cbn [fst snd].
  rewrite (new_events_app _ _ _ Hlog). split; [reflexivity | exact H].
Qed.

Lemma campaign_reaches_run (recipients : list string) (s : Sys) :
  exists s' evs,
    run_cold_email_campaign recipients s = (Ret tt, s')
    /\ campaign_reaches recipients s evs s'.
Proof.
  revert s. induction recipients as [|r rs IH]; intros s.
  - exists s, []. split; [reflexivity | constructor].
  - destruct (campaign_step_run r s) as (a & Hstep & Hans).
    destruct (IH (step_state r a s)) as (s' & evs & Hrun & Hreach).
    exists s', (step_events (sdr s) r a ++ evs).
    unfold run_cold_email_campaign in *. cbn [for_each].
    rewrite (bind_ret_eq _ _ _ _ _ Hstep). split; [exact Hrun|].
    constructor; [exact Hans | exact Hreach].
Qed.

Lemma campaign_reaches_log (recipients : list string) (s s' : Sys) (evs : list event) :
  campaign_reaches recipients s evs s' -> log (ext s') = log (ext s) ++ evs.
Proof.
  induction 1 as [s|r rs s s' a evs _ _ IH].
  - rewrite app_nil_r. reflexivity.
  - rewrite IH. cbn. rewrite <- app_assoc. reflexivity.
Qed.

(** Both run to the same place: the final state and the new log entries of
    the campaign are those of the iteration relation. *)
Lemma campaign_reaches_final (recipients : list string) (s : Sys) :
  campaign_reaches recipients s
    (new_events (ext s) (ext (final (run_cold_email_campaign recipients s))))
    (final (run_cold_email_campaign recipients s)).
Proof.
  destruct (campaign_reaches_run recipients s) as (s' & evs & Hrun & Hreach).
  rewrite Hrun. unfold final. cbn [snd].
  rewrite (new_events_app _ _ _ (campaign_reaches_log _ _ _ _ Hreach)). exact Hreach.
Qed.

Lemma step_state_company (r : string) (a : step_answers) (s : Sys) :
  company_name (sdr (step_state r a s)) = company_name (sdr s)
  /\ company_description (sdr (step_state r a s)) = company_description (sdr s)
  /\ email_address (sdr (step_state r a s)) = email_address (sdr s).
Proof. unfold step_state. cbn [sdr]. destruct (ans_sent a); repeat split. Qed.

(** Every entry of the store after a campaign was either there before or is
    the body of an email the campaign submitted successfully, stored under
    the lower-cased address it was sent to. *)
Theorem campaign_store_records_sent
    (recipients : list string) (s : Sys) (key text : string) :
  let s' := final (run_cold_email_campaign recipients s) in
  let evs := new_events (ext s) (ext s') in
  conversations (sdr s') !! key = Some text ->
  conversations (sdr s) !! key = Some text
  \/ exists sub, In sub (sent evs) /\ sub_ok sub = true
                 /\ key = lower (sub_to sub) /\ text = sub_body sub.
Proof.
  cbv zeta. pose proof (campaign_reaches_final recipients s) as Hreach.
  revert Hreach.
  generalize (new_events (ext s) (ext (final (run_cold_email_campaign recipients s)))).
  generalize (final (run_cold_email_campaign recipients s)).
  intros s' evs Hreach. induction Hreach as [s|r rs s s' a evs _ _ IH].
  - intros H. left. exact H.
  - intros H. destruct (IH H) as [Hs1|(sub & Hin & Hok & Hkey & Htext)].
    + unfold step_state in Hs1. cbn [sdr] in Hs1.
      destruct (ans_sent a) eqn:Hsent; [|left; exact Hs1].
      cbn [with_conversation conversations] in Hs1.
      destruct (decide (lower r = key)) as [Heq|Hne].
      * subst key. rewrite lookup_insert_eq in Hs1. injection Hs1 as <-.
        right. exists (Submission r (step_subject (sdr s) a) (step_best (sdr s) a) true).
        rewrite sent_app. cbn. rewrite Hsent.
        split; [left; reflexivity | repeat split].
      * rewrite lookup_insert_ne in Hs1 by exact Hne. left. exact Hs1.
    + right. exists sub. rewrite sent_app.
      split; [apply in_or_app; right; exact Hin | repeat split; assumption].
Qed.

Lemma campaign_store_records_sent_witness :
  exists sub,
    In sub (sent (new_events (offline true)
                   (ext (final (run_cold_email_campaign ["A@b.com"]
                                  (MkSys me (offline true)))))))
    /\ sub_ok sub = true /\ "a@b.com" = lower (sub_to sub)
    /\ cold_email_fallback me "CEO" = sub_body sub.
Proof.
  destruct (campaign_store_records_sent ["A@b.com"] (MkSys me (offline true))
              "a@b.com" (cold_email_fallback me "CEO")) as [H|H].
  - vm_compute. reflexivity.
  - vm_compute in H. discriminate H.
  - exact H.
Defined.

Lemma campaign_one_submission_each_aux (recipients : list string) (s : Sys) :
  map sub_to
    (sent (new_events (ext s) (ext (final (run_cold_email_campaign recipients s)))))
  = recipients.
Proof.
  destruct (campaign_trace recipients s) as (s' & evs & Hrun & Hlog & H & _).
  rewrite Hrun. unfold final. cbn [snd].
  rewrite (new_events_app _ _ _ Hlog). exact H.
Qed.

(** With the model unreachable the campaign still submits one email per
    recipient: the canned email addressed to "CEO", under the subject
    "Quick question about " followed by the company name. *)
Theorem campaign_without_model (recipients : list string) (s : Sys) :
  (forall history req, chat_oracle (ext s) history req = None) ->
  let evs := new_events (ext s) (ext (final (run_cold_email_campaign recipients s))) in
  map sub_to (sent evs) = recipients
  /\ Forall (fun sub =>
               sub_subject sub = "Quick question about " +:+ company_name (sdr s)
               /\ sub_body sub = cold_email_fallback (sdr s) "CEO")
            (sent evs).
Proof.
  intros Hdown. cbv zeta.
  split; [apply (campaign_one_submission_each_aux recipients s)|].
  pose proof (campaign_reaches_final recipients s) as Hreach.
  revert Hreach.
  generalize (new_events (ext s) (ext (final (run_cold_email_campaign recipients s)))).
  generalize (final (run_cold_email_campaign recipients s)).
  intros s' evs Hreach. induction Hreach as [s|r rs s s' a evs Hans _ IH].
  - constructor.
  - rewrite sent_app. apply Forall_app. split.
    + destruct Hans as (H1 & _ & _ & H4 & H5).
      destruct H1 as (h1 & q1 & H1), H4 as (h4 & q4 & H4), H5 as (h5 & q5 & H5).
      rewrite Hdown in H1, H4, H5.
      cbn. constructor; [|constructor]. cbn.
      unfold step_subject, step_best, step_draft. rewrite H1, H4, H5.
      split; reflexivity.
    + destruct (step_state_company r a s) as (Hn & Hd & _).
      assert (Hfb : cold_email_fallback (sdr (step_state r a s)) "CEO"
                    = cold_email_fallback (sdr s) "CEO").
      { unfold cold_email_fallback. rewrite Hn, Hd. reflexivity. }
      rewrite <- Hn, <- Hfb. apply IH. exact Hdown.
Qed.

Lemma campaign_without_model_witness :
  Forall (fun sub =>
            sub_subject sub = "Quick question about " +:+ company_name me
            /\ sub_body sub = cold_email_fallback me "CEO")
         (sent (new_events (offline false)
                  (ext (final (run_cold_email_campaign ["a@b.com"; "c@d.com"]
                                 (MkSys me (offline false))))))).
Proof.
  apply (campaign_without_model ["a@b.com"; "c@d.com"] (MkSys me (offline false))).
  reflexivity.
Defined.

(** ** Invariants through the combinators *)

Section Keeps.

Variable I : Sys -> Prop.

Lemma keeps_ret {A : Type} (a : A) : keeps I (ret a).
Proof. intros s H. exact H. Qed.

Lemma keeps_raise {A : Type} (e : exn) : keeps I (@raise Sys A e).
Proof. intros s H. exact H. Qed.

Lemma keeps_gets {A : Type} (f : Sys -> A) : keeps I (gets f).
Proof. intros s H. exact H. Qed.

Lemma keeps_bind {A B : Type} (m : M Sys A) (k : A -> M Sys B) :
  keeps I m -> (forall a, keeps I (k a)) -> keeps I (bind m k).
Proof.
  intros Hm Hk s Hs. specialize (Hm s Hs). unfold bind, final in *.
  destruct (m s) as [[a|e] s1]; cbn [snd] in *; [apply (Hk a s1 Hm) | exact Hm].
Qed.

Lemma keeps_try_except {A : Type} (m : M Sys A) (h : exn -> M Sys A) :
  keeps I m -> (forall e, keeps I (h e)) -> keeps I (try_except m h).
Proof.
  intros Hm Hh s Hs. specialize (Hm s Hs). unfold try_except, final in *.
  destruct (m s) as [[a|e] s1]; cbn [snd] in *; [exact Hm | apply (Hh e s1 Hm)].
Qed.

Lemma keeps_for_each {A : Type} (xs : list A) (body : A -> M Sys unit) :
  (forall x, In x xs -> keeps I (body x)) -> keeps I (for_each xs body).
Proof.
  induction xs as [|x xs IH]; intros Hbody; cbn [for_each].
  - apply keeps_ret.
  - apply keeps_bind.
    + apply Hbody. left. reflexivity.
    + intros _. apply IH. intros y Hy. apply Hbody. right. exact Hy.
Qed.

Lemma keeps_extract_body (m : message) : keeps I (extract_body m).
Proof.
  intros s Hs. unfold final. rewrite extract_body_state. exact Hs.
Qed.

End Keeps.

(** An invariant of the instance is kept by whatever runs on the world. *)
Lemma keeps_on_world_instance {A : Type} (J : SimpleSDR -> Prop) (m : M World A) :
  keeps (fun s => J (sdr s)) (on_world m).
Proof.
  intros s Hs. unfold on_world, final. destruct (m (ext s)). exact Hs.
Qed.

(** An invariant of the world is kept by [on_world m] when [m] keeps it. *)
Lemma keeps_on_world {A : Type} (J : World -> Prop) (m : M World A) :
  (forall w, J w -> J (snd (m w))) -> keeps (fun s => J (ext s)) (on_world m).
Proof.
  intros Hm s Hs. unfold on_world, final. specialize (Hm (ext s) Hs).
  destruct (m (ext s)). exact Hm.
Qed.

(** ** The keys of the store *)

Lemma is_upper_range (c : ascii) :
  is_upper c = true <-> 65 <= nat_of_ascii c /\ nat_of_ascii c <= 90.
Proof.
  unfold is_upper. cbv zeta. rewrite andb_true_iff, !Nat.leb_le. reflexivity.
Qed.

Lemma lower_char_idem (c : ascii) : lower_char (lower_char c) = lower_char c.
Proof.
  apply nat_of_ascii_inj. rewrite (lower_char_nat (lower_char c)).
  destruct (is_upper (lower_char c)) eqn:Hup; [|reflexivity].
  exfalso. apply is_upper_range in Hup. pose proof (lower_char_nat c) as Hn.
  destruct (is_upper c) eqn:Hc.
  - apply is_upper_range in Hc. lia.
  - rewrite Hn in Hup. apply is_upper_range in Hup. congruence.
Qed.

Lemma lower_idem (s : string) : lower (lower s) = lower s.
Proof.
  induction s as [|c s IH]; cbn; [reflexivity|].
  rewrite lower_char_idem, IH. reflexivity.
Qed.

Lemma keys_lower_insert (key text : string) (self : SimpleSDR) :
  keys_lower self -> keys_lower (with_conversation (lower key) text self).
Proof.
  intros H k Hk. cbn [with_conversation conversations] in Hk.
  destruct (decide (lower key = k)) as [<-|Hne].
  - apply lower_idem.
  - rewrite lookup_insert_ne in Hk by exact Hne. apply H, Hk.
Qed.

Lemma keeps_keys_handle_reply (from_email subject body : option string) :
  keeps (fun s => keys_lower (sdr s)) (handle_reply from_email subject body).
Proof.
  intros s Hs.
  destruct from_email as [sender|]; [destruct subject as [subject_text|]|].
  - rewrite handle_reply_run. unfold final. cbn [snd sdr].
    destruct (smtp_oracle _ _ _ _ _); [apply keys_lower_insert, Hs | exact Hs].
  - rewrite handle_reply_no_subject. exact Hs.
  - rewrite handle_reply_no_sender. exact Hs.
Qed.

Lemma keeps_keys_process_message (id : nat) :
  keeps (fun s => keys_lower (sdr s)) (process_message id).
Proof.
  unfold process_message.
  apply keeps_bind; [apply (keeps_on_world_instance keys_lower)|].
  intros [email_message|]; [|apply keeps_ret].
  apply keeps_bind; [apply keeps_extract_body | intros body].
  apply keeps_bind; [apply keeps_keys_handle_reply | intros _].
  apply (keeps_on_world_instance keys_lower).
Qed.

Lemma keeps_keys_check_for_replies :
  keeps (fun s => keys_lower (sdr s)) check_for_replies.
Proof.
  unfold check_for_replies.
  apply keeps_try_except; [|intros e; apply keeps_ret].
  apply keeps_bind; [apply (keeps_on_world_instance keys_lower) | intros _].
  apply keeps_bind; [apply (keeps_on_world_instance keys_lower) | intros ids].
  apply keeps_for_each. intros id _. apply keeps_keys_process_message.
Qed.

Lemma keeps_keys_monitor (cycles : nat) :
  keeps (fun s => keys_lower (sdr s)) (monitor cycles).
Proof.
  induction cycles as [|n IH]; cbn [monitor]; [apply keeps_ret|].
  apply keeps_bind; [|intros _; exact IH].
  apply keeps_try_except.
  - apply keeps_bind; [apply keeps_keys_check_for_replies | intros _].
    apply (keeps_on_world_instance keys_lower).
  - intros e. apply (keeps_on_world_instance keys_lower).
Qed.

Lemma keeps_keys_campaign (recipients : list string) :
  keeps (fun s => keys_lower (sdr s)) (run_cold_email_campaign recipients).
Proof.
  apply keeps_for_each. intros r _. unfold campaign_step.
  apply keeps_bind; [apply keeps_gets | intros self].
  apply keeps_bind; [apply (keeps_on_world_instance keys_lower) | intros emails].
  apply keeps_bind; [apply (keeps_on_world_instance keys_lower) | intros best_email].
  apply keeps_bind; [apply (keeps_on_world_instance keys_lower) | intros subject].
  apply keeps_bind; [apply (keeps_on_world_instance keys_lower) | intros success].
  apply keeps_bind; [|intros _; apply (keeps_on_world_instance keys_lower)].
  destruct success; [|apply keeps_ret].
  intros s Hs. apply keys_lower_insert, Hs.
Qed.

(** Every key of the conversation store is in lower case: a new instance
    has no key, and the campaign, the reply handler and the monitor loop
    keep the property. Hence addresses that differ only in letter case
    never have two entries. *)
Theorem store_keys_stay_lower (s : Sys) :
  (forall w w' self, SimpleSDR_init w = (Ret self, w') -> keys_lower self)
  /\ (keys_lower (sdr s) ->
      (forall recipients,
         keys_lower (sdr (final (run_cold_email_campaign recipients s))))
      /\ (forall from_email subject body,
            keys_lower (sdr (final (handle_reply from_email subject body s))))
      /\ (forall cycles, keys_lower (sdr (final (monitor cycles s))))).
Proof.
  split.
  - intros w w' self Hinit key Hkey.
    destruct (SimpleSDR_init_fresh _ _ _ Hinit) as [_ Hfresh].
    rewrite (Hfresh self eq_refl), lookup_empty in Hkey.
    destruct Hkey as [v Hv]. discriminate Hv.
  - intros Hs. split; [|split].
    + intros recipients. apply (keeps_keys_campaign recipients s Hs).
    + intros f sj b. apply (keeps_keys_handle_reply f sj b s Hs).
    + intros cycles. apply (keeps_keys_monitor cycles s Hs).
Qed.

Lemma store_keys_stay_lower_witness :
  keys_lower (sdr (final (handle_reply (Some "Name <A@B.com>") (Some "Hi") (Some "More?")
                                       (seeded true)))).
Proof.
  apply (proj2 (store_keys_stay_lower (seeded true))).
  intros key [v Hv]. unfold seeded, seeded_with in Hv.
  cbn [sdr with_conversation conversations me] in Hv.
  destruct (decide ("x@y.com" = key)) as [<-|Hne]; [reflexivity|].
  rewrite lookup_insert_ne, lookup_empty in Hv by exact Hne. discriminate Hv.
Defined.

(** ** The flags of the mailbox *)

Lemma unseen_spec (id : nat) (mb : Mailbox) :
  In id (unseen mb) <->
  exists it, In it (items mb) /\ seen it = false /\ msg_id it = id.
Proof.
  unfold unseen. rewrite in_map_iff. split.
  - intros (it & Hid & Hin). exists it.
    apply list_elem_of_In, list_elem_of_filter in Hin. destruct Hin as [Hp Hin].
    apply list_elem_of_In in Hin. destruct (seen it); [destruct Hp|].
    repeat split; assumption.
  - intros (it & Hin & Hseen & Hid). exists it. split; [exact Hid|].
    apply list_elem_of_In, list_elem_of_filter. rewrite Hseen.
    split; [exact I | apply list_elem_of_In, Hin].
Qed.

Lemma mark_seen_inv (id : nat) (it : mail_item) :
  msg_id (mark_seen id it) = msg_id it
  /\ msg (mark_seen id it) = msg it
  /\ (seen (mark_seen id it) = false -> seen it = false /\ msg_id it <> id).
Proof.
  unfold mark_seen. destruct (Nat.eqb (msg_id it) id) eqn:Heq; cbn.
  - repeat split; discriminate.
  - apply Nat.eqb_neq in Heq. repeat split; assumption.
Qed.

(** Storing the flag of [id] removes [id] from the unseen messages and adds
    none. *)
Lemma unseen_flag_seen (id id' : nat) (mb : Mailbox) :
  In id' (unseen (flag_seen id mb)) -> In id' (unseen mb) /\ id' <> id.
Proof.
  rewrite !unseen_spec. unfold flag_seen. cbn [items].
  intros (it' & Hin & Hseen & Hid). apply in_map_iff in Hin.
  destruct Hin as (it & <- & Hin).
  destruct (mark_seen_inv id it) as (Hi & _ & Hs). specialize (Hs Hseen).
  rewrite Hi in Hid. subst id'. split; [|apply Hs].
  exists it. repeat split; [exact Hin | apply Hs].
Qed.

Lemma mail_flag_seen (id : nat) (mb : Mailbox) : mail (flag_seen id mb) = mail mb.
Proof.
  unfold mail, flag_seen. cbn [items]. rewrite map_map. apply map_ext.
  intros it. destruct (mark_seen_inv id it) as (-> & -> & _). reflexivity.
Qed.

Section Polling.

Variables (U : list nat) (L0 : list event) (C : list (nat * message)).

Lemma poll_inv_push_quiet (e : event) (w : World) :
  fetched [e] = [] -> poll_inv U L0 C w -> poll_inv U L0 C (push e w).
Proof.
  intros Hq (Hu & (evs & Hlog & Hf) & Hm). split; [exact Hu|]. split; [|exact Hm].
  exists (evs ++ [e]). cbn [push log]. rewrite Hlog, app_assoc. split; [reflexivity|].
  intros id. rewrite fetched_app, Hq, app_nil_r. apply Hf.
Qed.

Lemma poll_inv_push_fetch (id : nat) (w : World) :
  In id U -> poll_inv U L0 C w -> poll_inv U L0 C (push (EvImapFetch id) w).
Proof.
  intros Hid (Hu & (evs & Hlog & Hf) & Hm). split; [exact Hu|]. split; [|exact Hm].
  exists (evs ++ [EvImapFetch id]). cbn [push log]. rewrite Hlog, app_assoc.
  split; [reflexivity|].
  intros id'. rewrite fetched_app. cbn. intros Hin.
  apply in_app_or in Hin. destruct Hin as [Hin|[<-|[]]]; [apply Hf, Hin | exact Hid].
Qed.

Lemma poll_inv_flag (id : nat) (w : World) :
  poll_inv U L0 C w -> poll_inv U L0 C (with_inbox (flag_seen id (inbox w)) w).
Proof.
  intros (Hu & Hf & Hm). split; [|split].
  - intros id' Hin. cbn [with_inbox inbox] in Hin.
    apply unseen_flag_seen in Hin. apply Hu, Hin.
  - exact Hf.
  - cbn [with_inbox inbox]. rewrite mail_flag_seen. exact Hm.
Qed.

Lemma keeps_poll_handle_reply (from_email subject body : option string) :
  keeps (fun s => poll_inv U L0 C (ext s)) (handle_reply from_email subject body).
Proof.
  intros s Hs.
  destruct from_email as [sender|]; [destruct subject as [subject_text|]|].
  - rewrite handle_reply_run. unfold final. cbn [snd ext].
    repeat (apply poll_inv_push_quiet; [reflexivity|]). exact Hs.
  - rewrite handle_reply_no_subject. unfold final. cbn [snd ext].
    repeat (apply poll_inv_push_quiet; [reflexivity|]). exact Hs.
  - rewrite handle_reply_no_sender. unfold final. cbn [snd ext].
    repeat (apply poll_inv_push_quiet; [reflexivity|]). exact Hs.
Qed.

Lemma poll_inv_fetch (id : nat) (w : World) :
  In id U -> poll_inv U L0 C w -> poll_inv U L0 C (snd (imap_fetch id w)).
Proof.
  intros Hid Hw. unfold imap_fetch. run_monad.
  pose proof (poll_inv_push_fetch id w Hid Hw) as Hp.
  destruct (find _ (items (inbox w))) as [it|]; cbn; [|exact Hp].
  destruct (fetch_sets_seen (inbox w)); cbn; [|exact Hp].
  apply (poll_inv_flag id _ Hp).
Qed.

Lemma poll_inv_store_seen (id : nat) (w : World) :
  poll_inv U L0 C w -> poll_inv U L0 C (snd (imap_store_seen id w)).
Proof.
  intros Hw. unfold imap_store_seen. run_monad.
  apply (poll_inv_flag id (push (EvImapSeen id) w)).
  apply poll_inv_push_quiet; [reflexivity | exact Hw].
Qed.

Lemma keeps_poll_process_message (id : nat) :
  In id U -> keeps (fun s => poll_inv U L0 C (ext s)) (process_message id).
Proof.
  intros Hid. unfold process_message.
  apply keeps_bind.
  - apply (keeps_on_world (poll_inv U L0 C)). intros w. apply poll_inv_fetch, Hid.
  - intros [email_message|]; [|apply keeps_ret].
    apply keeps_bind; [apply keeps_extract_body | intros body].
    apply keeps_bind; [apply keeps_poll_handle_reply | intros _].
    apply (keeps_on_world (poll_inv U L0 C)). intros w. apply poll_inv_store_seen.
Qed.

Lemma keeps_poll_check_for_replies :
  keeps (fun s => poll_inv U L0 C (ext s)) check_for_replies.
Proof.
  unfold check_for_replies.
  apply keeps_try_except; [|intros e; apply keeps_ret].
  intros s Hs. unfold bind at 1, on_world at 1, imap_connect, gets, bind, final.
  cbn. destruct (reachable (inbox (ext s))); cbn [ret raise snd]; [|exact Hs].
  change (poll_inv U L0 C
            (ext (final (for_each (unseen (inbox (ext s))) process_message
                                  (MkSys (sdr s) (ext s)))))).
  apply (keeps_for_each (fun s => poll_inv U L0 C (ext s))); [|exact Hs].
  intros id Hid. apply keeps_poll_process_message. apply Hs, Hid.
Qed.

Lemma keeps_poll_monitor (cycles : nat) :
  keeps (fun s => poll_inv U L0 C (ext s)) (monitor cycles).
Proof.
  induction cycles as [|n IH]; cbn [monitor]; [apply keeps_ret|].
  apply keeps_bind; [|intros _; exact IH].
  assert (Hsleep : keeps (fun s => poll_inv U L0 C (ext s)) (on_world (emit (EvSleep 60)))).
  { apply (keeps_on_world (poll_inv U L0 C)). intros w Hw.
    apply poll_inv_push_quiet; [reflexivity | exact Hw]. }
  apply keeps_try_except; [|intros e; exact Hsleep].
  apply keeps_bind; [apply keeps_poll_check_for_replies | intros _; exact Hsleep].
Qed.

End Polling.

Lemma poll_inv_start (w : World) :
  poll_inv (unseen (inbox w)) (log w) (mail (inbox w)) w.
Proof.
  split; [intros id H; exact H|]. split; [|reflexivity].
  exists []. rewrite app_nil_r. split; [reflexivity | intros id []].
Qed.

(** Polling only ever sets flags. However many cycles the monitor runs, the
    mailbox holds the same messages afterwards, no message that was seen
    becomes unseen, and a message that was seen when the monitor started is
    never fetched. *)
Theorem monitor_never_refetches_seen (cycles : nat) (s : Sys) (id : nat) :
  let s' := final (monitor cycles s) in
  mail (inbox (ext s')) = mail (inbox (ext s))
  /\ (~ In id (unseen (inbox (ext s))) ->
      ~ In id (unseen (inbox (ext s')))
      /\ ~ In id (fetched (new_events (ext s) (ext s')))).
Proof.
  cbv zeta.
  pose proof (keeps_poll_monitor _ _ _ cycles s (poll_inv_start (ext s)))
    as (Hu & (evs & Hlog & Hf) & Hm).
  split; [exact Hm|]. intros Hseen. split.
  - intros Hin. apply Hseen, Hu, Hin.
  - rewrite (new_events_app _ _ _ Hlog). intros Hin. apply Hseen, Hf, Hin.
Qed.

Lemma monitor_never_refetches_seen_witness :
  ~ In 1 (fetched (new_events
                     (offline_with (MkMailbox true false [MailItem 1 true reply_mail]) true)
                     (ext (final (monitor 3
                        (MkSys me
                           (offline_with (MkMailbox true false [MailItem 1 true reply_mail])
                                         true))))))).
Proof.
  apply (proj2 (monitor_never_refetches_seen 3
           (MkSys me (offline_with (MkMailbox true false [MailItem 1 true reply_mail]) true))
           1)).
  vm_compute. intros [].
Defined.

(** ** One poll cycle *)

Lemma check_for_replies_returns (s : Sys) : fst (check_for_replies s) = Ret tt.
Proof.
  unfold check_for_replies, try_except.
  destruct (bind _ _ s) as [[[]|e] s1]; reflexivity.
Qed.

Lemma connect_run (s : Sys) :
  on_world imap_connect s
  = (if reachable (inbox (ext s)) then Ret tt else Raise ImapError,
     MkSys (sdr s) (ext s)).
Proof.
  unfold on_world, imap_connect, bind, gets.
  destruct (reachable (inbox (ext s))); reflexivity.
Qed.

Lemma search_run (s : Sys) :
  on_world imap_search_unseen s = (Ret (unseen (inbox (ext s))), MkSys (sdr s) (ext s)).
Proof. reflexivity. Qed.

Lemma check_for_replies_unfold (s : Sys) :
  check_for_replies s
  = if reachable (inbox (ext s))
    then try_except (for_each (unseen (inbox (ext s))) process_message)
                    (fun _ => ret tt) (MkSys (sdr s) (ext s))
    else (Ret tt, MkSys (sdr s) (ext s)).
Proof.
  unfold check_for_replies, try_except at 1.
  destruct (reachable (inbox (ext s))) eqn:Hup.
  - assert (Hc : on_world imap_connect s = (Ret tt, MkSys (sdr s) (ext s)))
      by (rewrite connect_run, Hup; reflexivity).
    rewrite (bind_ret_eq _ _ _ _ _ Hc).
    rewrite (bind_ret_eq _ _ _ _ _ (search_run (MkSys (sdr s) (ext s)))).
    reflexivity.
  - assert (Hc : on_world imap_connect s = (Raise ImapError, MkSys (sdr s) (ext s)))
      by (rewrite connect_run, Hup; reflexivity).
    rewrite (bind_raise_eq _ _ _ _ _ Hc). reflexivity.
Qed.

(** A poll cycle never raises, and it leaves the instance and the world as
    they are when the server cannot be reached or no message is unseen. *)
Theorem poll_cycle_idle (s : Sys) :
  fst (check_for_replies s) = Ret tt
  /\ (reachable (inbox (ext s)) = false \/ unseen (inbox (ext s)) = [] ->
      sdr (final (check_for_replies s)) = sdr s
      /\ ext (final (check_for_replies s)) = ext s).
Proof.
  split; [apply check_for_replies_returns|].
  intros Hidle. rewrite check_for_replies_unfold. destruct Hidle as [Hdown|Hnone].
  - rewrite Hdown. split; reflexivity.
  - rewrite Hnone. destruct (reachable (inbox (ext s))); split; reflexivity.
Qed.

Lemma poll_cycle_idle_witness :
  ext (final (check_for_replies (MkSys me (offline_with (MkMailbox false false
         [MailItem 1 false reply_mail]) true))))
  = offline_with (MkMailbox false false [MailItem 1 false reply_mail]) true.
Proof.
  apply (proj2 (poll_cycle_idle (MkSys me (offline_with (MkMailbox false false
           [MailItem 1 false reply_mail]) true)))).
  left. reflexivity.
Defined.

Lemma extract_body_run (m : message) (s : Sys) :
  extract_body m s
  = (match body_of m with
     | Some body => Ret body
     | None => Raise UnicodeDecodeError
     end, s).
Proof.
  unfold extract_body, body_of, decode.
  destruct (msg_payload m) as [[t|]|parts]; try reflexivity.
  destruct (find is_text_plain parts) as [p|]; [|reflexivity].
  destruct (part_text p); reflexivity.
Qed.

Lemma fetch_run (id : nat) (s : Sys) :
  on_world (imap_fetch id) s
  = (Ret (lookup_msg (inbox (ext s)) id), MkSys (sdr s) (after_fetch id (ext s))).
Proof.
  unfold imap_fetch, after_fetch, lookup_msg. run_monad.
  destruct (find _ (items (inbox (ext s)))) as [it|]; cbn; [|reflexivity].
  destruct (fetch_sets_seen (inbox (ext s))); reflexivity.
Qed.



Lemma after_fetch_log (id : nat) (w : World) :
  log (after_fetch id w) = log w ++ [EvImapFetch id].
Proof.
  unfold after_fetch. destruct (lookup_msg (inbox w) id); [|reflexivity].
  destruct (fetch_sets_seen (inbox w)); reflexivity.
Qed.




Lemma lookup_flag_seen (j id : nat) (mb : Mailbox) :
  lookup_msg (flag_seen j mb) id = lookup_msg mb id.
Proof.
  unfold lookup_msg, flag_seen. cbn [items].
  induction (items mb) as [|it l IH]; [reflexivity|].
  cbn [map find]. destruct (mark_seen_inv j it) as (Hi & Hm & _).
  rewrite Hi. destruct (Nat.eqb (msg_id it) id); [cbn; rewrite Hm; reflexivity | exact IH].
Qed.

Lemma lookup_flag_all (ids : list nat) (id : nat) (mb : Mailbox) :
  lookup_msg (flag_all ids mb) id = lookup_msg mb id.
Proof.
  revert mb. induction ids as [|j ids IH]; intros mb; [reflexivity|].
  cbn [flag_all fold_left]. fold (flag_all ids (flag_seen j mb)).
  rewrite IH. apply lookup_flag_seen.
Qed.





(** ** The monitor loop *)

(** One iteration of the loop: a poll cycle, which always returns, then the
    pause. *)
Lemma monitor_succ (n : nat) (s : Sys) :
  monitor (S n) s
  = monitor n (MkSys (sdr (final (check_for_replies s)))
                     (push (EvSleep 60) (ext (final (check_for_replies s))))).
Proof.
  cbn [monitor]. pose proof (check_for_replies_returns s) as Hret.
  unfold bind, try_except, on_world, emit, modify, final.
  destruct (check_for_replies s) as [[[]|e] s1]; cbn [fst snd] in *;
    [reflexivity | discriminate Hret].
Qed.

Section Quiet.

Variable L0 : list event.

Lemma quiet_push (e : event) (w : World) :
  sleeps [e] = [] -> quiet_since L0 w -> quiet_since L0 (push e w).
Proof.
  intros Hq (evs & Hlog & Hs). exists (evs ++ [e]). cbn [push log].
  rewrite Hlog, app_assoc, sleeps_app, Hs, Hq. split; reflexivity.
Qed.

Lemma keeps_quiet_handle_reply (from_email subject body : option string) :
  keeps (fun s => quiet_since L0 (ext s)) (handle_reply from_email subject body).
Proof.
  intros s Hs.
  destruct from_email as [sender|]; [destruct subject as [subject_text|]|].
  - rewrite handle_reply_run. unfold final. cbn [snd ext].
    repeat (apply quiet_push; [reflexivity|]). exact Hs.
  - rewrite handle_reply_no_subject. unfold final. cbn [snd ext].
    repeat (apply quiet_push; [reflexivity|]). exact Hs.
  - rewrite handle_reply_no_sender. unfold final. cbn [snd ext].
    repeat (apply quiet_push; [reflexivity|]). exact Hs.
Qed.

Lemma keeps_quiet_process_message (id : nat) :
  keeps (fun s => quiet_since L0 (ext s)) (process_message id).
Proof.
  unfold process_message. apply keeps_bind.
  - intros s Hs. rewrite fetch_run. unfold final. cbn [snd ext].
    destruct Hs as (evs & Hlog & Hq). exists (evs ++ [EvImapFetch id]).
    rewrite after_fetch_log, Hlog, app_assoc, sleeps_app, Hq. split; reflexivity.
  - intros [email_message|]; [|apply keeps_ret].
    apply keeps_bind; [apply keeps_extract_body | intros body].
    apply keeps_bind; [apply keeps_quiet_handle_reply | intros _].
    apply (keeps_on_world (quiet_since L0)). intros w Hw.
    unfold imap_store_seen. run_monad.
    apply (quiet_push (EvImapSeen id) w eq_refl) in Hw.
    destruct Hw as (evs & Hlog & Hq). exists evs. split; [exact Hlog | exact Hq].
Qed.

Lemma keeps_quiet_check_for_replies :
  keeps (fun s => quiet_since L0 (ext s)) check_for_replies.
Proof.
  unfold check_for_replies.
  apply keeps_try_except; [|intros e; apply keeps_ret].
  apply keeps_bind.
  - intros s Hs. rewrite connect_run. exact Hs.
  - intros _. apply keeps_bind; [intros s Hs; exact Hs | intros ids].
    apply keeps_for_each. intros id _. apply keeps_quiet_process_message.
Qed.

End Quiet.

Lemma monitor_trace (n : nat) (s : Sys) :
  exists s' evs,
    monitor n s = (Ret tt, s')
    /\ log (ext s') = log (ext s) ++ evs
    /\ sleeps evs = repeat 60 n.
Proof.
  revert s. induction n as [|n IH]; intros s.
  - exists s, []. rewrite app_nil_r. repeat split.
  - rewrite monitor_succ.
    assert (Hq : quiet_since (log (ext s)) (ext s))
      by (exists []; rewrite app_nil_r; split; reflexivity).
    apply (keeps_quiet_check_for_replies (log (ext s)) s) in Hq.
    destruct Hq as (evs1 & Hlog1 & Hq1).
    destruct (IH (MkSys (sdr (final (check_for_replies s)))
                        (push (EvSleep 60) (ext (final (check_for_replies s))))))
      as (s' & evs & Hrun & Hlog & Hsl).
    exists s', (evs1 ++ [EvSleep 60] ++ evs). split; [exact Hrun|].
    cbn [ext push log] in Hlog. rewrite Hlog, Hlog1, <- !app_assoc.
    split; [reflexivity|]. rewrite !sleeps_app, Hq1, Hsl. reflexivity.
Qed.

(** The monitor loop never stops on an error: whatever happens in a cycle,
    the loop completes it, pauses 60 seconds and goes on, so [cycles]
    iterations make exactly [cycles] pauses of 60 seconds. *)
Theorem monitor_keeps_going (cycles : nat) (s : Sys) :
  fst (monitor cycles s) = Ret tt
  /\ sleeps (new_events (ext s) (ext (final (monitor cycles s)))) = repeat 60 cycles.
Proof.
  destruct (monitor_trace cycles s) as (s' & evs & Hrun & Hlog & Hsl).
  rewrite Hrun. unfold final. cbn [fst snd].
  rewrite (new_events_app _ _ _ Hlog). split; [reflexivity | exact Hsl].
Qed.

(** ** A message the handler cannot process *)

Lemma after_fetch_plain (id : nat) (w : World) :
  fetch_sets_seen (inbox w) = false -> after_fetch id w = push (EvImapFetch id) w.
Proof.
  intros H. unfold after_fetch. rewrite H. destruct (lookup_msg (inbox w) id); reflexivity.
Qed.

Lemma process_message_malformed (id : nat) (s : Sys) (m : message) :
  lookup_msg (inbox (ext s)) id = Some m ->
  ~ well_formed m ->
  fetch_sets_seen (inbox (ext s)) = false ->
  exists e s' evs,
    process_message id s = (Raise e, s')
    /\ log (ext s') = log (ext s) ++ EvImapFetch id :: evs
    /\ fetched evs = [] /\ sent evs = []
    /\ inbox (ext s') = inbox (ext s) /\ sdr s' = sdr s.
Proof.
  intros Hm Hbad Hflag. unfold process_message.
  rewrite (bind_ret_eq _ _ _ _ _ (fetch_run id s)), Hm, (after_fetch_plain _ _ Hflag).
  set (s1 := MkSys (sdr s) (push (EvImapFetch id) (ext s))).
  destruct (body_of m) as [b|] eqn:Hb.
  - assert (Hx : extract_body m s1 = (Ret b, s1))
      by (rewrite extract_body_run, Hb; reflexivity).
    rewrite (bind_ret_eq _ _ _ _ _ Hx).
    destruct (msg_from m) as [f|] eqn:Hf; [destruct (msg_subject m) as [sj|] eqn:Hsj|].
    + exfalso. apply Hbad. repeat split; eauto.
    + pose proof (handle_reply_no_subject f (Some b) s1) as Hrun. cbv zeta in Hrun.
      rewrite (bind_raise_eq _ _ _ _ _ Hrun).
      do 2 eexists. eexists [_; _]. split; [reflexivity|]. cbn.
      rewrite <- !app_assoc. repeat split.
    + rewrite (bind_raise_eq _ _ _ _ _ (handle_reply_no_sender (msg_subject m) (Some b) s1)).
      do 2 eexists. eexists [_]. split; [reflexivity|]. cbn.
      rewrite <- !app_assoc. repeat split.
  - assert (Hx : extract_body m s1 = (Raise UnicodeDecodeError, s1))
      by (rewrite extract_body_run, Hb; reflexivity).
    rewrite (bind_raise_eq _ _ _ _ _ Hx).
    do 2 eexists. exists []. split; [reflexivity|]. repeat split.
Qed.

Lemma poison_cycle (s : Sys) (id : nat) (rest : list nat) (m : message) :
  reachable (inbox (ext s)) = true ->
  fetch_sets_seen (inbox (ext s)) = false ->
  unseen (inbox (ext s)) = id :: rest ->
  lookup_msg (inbox (ext s)) id = Some m ->
  ~ well_formed m ->
  exists s' evs,
    check_for_replies s = (Ret tt, s')
    /\ log (ext s') = log (ext s) ++ EvImapFetch id :: evs
    /\ fetched evs = [] /\ sent evs = []
    /\ inbox (ext s') = inbox (ext s) /\ sdr s' = sdr s.
Proof.
  intros Hup Hflag Hunseen Hm Hbad.
  rewrite check_for_replies_unfold, Hup, Hunseen. cbn [for_each].
  destruct (process_message_malformed id (MkSys (sdr s) (ext s)) m Hm Hbad Hflag)
    as (e & s' & evs & Hrun & H).
  unfold try_except. rewrite (bind_raise_eq _ _ _ _ _ Hrun).
  exists s', evs. split; [reflexivity | exact H].
Qed.

(** On a server where only the explicit store sets the flag, a first unseen
    message that lacks a header or does not decode is fetched again in every
    cycle of the monitor: no other message is ever fetched, nothing is
    submitted, and the mailbox and the store stay as they were. *)
Theorem malformed_message_blocks_polling
    (cycles : nat) (s : Sys) (id : nat) (rest : list nat) (m : message) :
  reachable (inbox (ext s)) = true ->
  fetch_sets_seen (inbox (ext s)) = false ->
  unseen (inbox (ext s)) = id :: rest ->
  lookup_msg (inbox (ext s)) id = Some m ->
  ~ well_formed m ->
  let s' := final (monitor cycles s) in
  let evs := new_events (ext s) (ext s') in
  fetched evs = repeat id cycles
  /\ sent evs = []
  /\ inbox (ext s') = inbox (ext s)
  /\ sdr s' = sdr s.
Proof.
  intros Hup Hflag Hunseen Hm Hbad. cbv zeta.
  assert (Htrace : exists s' evs,
            monitor cycles s = (Ret tt, s')
            /\ log (ext s') = log (ext s) ++ evs
            /\ fetched evs = repeat id cycles /\ sent evs = []
            /\ inbox (ext s') = inbox (ext s) /\ sdr s' = sdr s).
  { revert s Hup Hflag Hunseen Hm. induction cycles as [|n IH]; intros s Hup Hflag Hunseen Hm.
    - exists s, []. rewrite app_nil_r. repeat split.
    - rewrite monitor_succ.
      destruct (poison_cycle s id rest m Hup Hflag Hunseen Hm Hbad)
        as (s1 & evs1 & Hrun & Hlog1 & Hf1 & Hs1 & Hin1 & Hsdr1).
      rewrite Hrun. unfold final. cbn [snd].
      destruct (IH (MkSys (sdr s1) (push (EvSleep 60) (ext s1))))
        as (s' & evs & Hrun' & Hlog & Hf & Hs & Hin & Hsdr);
        cbn [ext push inbox]; rewrite ?Hin1; try assumption.
      exists s', (EvImapFetch id :: evs1 ++ [EvSleep 60] ++ evs).
      split; [exact Hrun'|]. cbn [ext push log sdr inbox] in Hlog, Hin, Hsdr.
      split; [rewrite Hlog, Hlog1, <- !app_assoc; reflexivity|].
      cbn [fetched sent]. rewrite !fetched_app, !sent_app, Hf1, Hs1, Hf, Hs.
      split; [reflexivity|]. split; [reflexivity|].
      split; [rewrite Hin; exact Hin1 | rewrite Hsdr; exact Hsdr1]. }
  destruct Htrace as (s' & evs & Hrun & Hlog & H).
  rewrite Hrun. unfold final. cbn [snd]. rewrite (new_events_app _ _ _ Hlog). exact H.
Qed.

Lemma malformed_message_blocks_polling_witness :
  fetched (new_events
             (offline_with (MkMailbox true false
                [MailItem 7 false no_subject_mail; MailItem 8 false reply_mail]) true)
             (ext (final (monitor 3 (MkSys me
                (offline_with (MkMailbox true false
                   [MailItem 7 false no_subject_mail; MailItem 8 false reply_mail])
                   true))))))
  = [7; 7; 7].
Proof.
  apply (malformed_message_blocks_polling 3
           (MkSys me (offline_with (MkMailbox true false
              [MailItem 7 false no_subject_mail; MailItem 8 false reply_mail]) true))
           7 [8] no_subject_mail); try reflexivity.
  intros (_ & [sj Hsj] & _). discriminate Hsj.
Defined.

(** ** Threads only grow under the reply handler *)

Lemma append_assoc (a b c : string) : (a +:+ b) +:+ c = a +:+ (b +:+ c).
Proof.
  induction a as [|x a IH]; [reflexivity|].
  change (String x ((a +:+ b) +:+ c) = String x (a +:+ (b +:+ c))).
  rewrite IH. reflexivity.
Qed.

Lemma startswith_refl (s : string) : startswith s s = true.
Proof.
  apply startswith_split. exists EmptyString.
  induction s as [|c s IH]; [reflexivity|].
  change (String c s = String c (s +:+ EmptyString)). congruence.
Qed.

Lemma startswith_app_l (s p t : string) :
  startswith s p = true -> startswith (s +:+ t) p = true.
Proof.
  intros H. apply startswith_split in H. destruct H as [rest ->].
  rewrite append_assoc. apply startswith_app.
Qed.

Lemma threads_extend_refl (self : SimpleSDR) : threads_extend self self.
Proof. intros key. apply startswith_refl. Qed.

Lemma keeps_threads_handle_reply (self0 : SimpleSDR)
    (from_email subject body : option string) :
  keeps (fun s => threads_extend self0 (sdr s)) (handle_reply from_email subject body).
Proof.
  intros s Hs.
  destruct from_email as [sender|]; [destruct subject as [subject_text|]|].
  - rewrite handle_reply_run. unfold final. cbn [snd sdr].
    destruct (smtp_oracle _ _ _ _ _); [|exact Hs].
    intros key. cbn [with_conversation conversations].
    destruct (decide (lower sender = key)) as [<-|Hne].
    + rewrite dict_get_insert. unfold thread_update.
      apply startswith_app_l, Hs.
    + unfold dict_get. rewrite lookup_insert_ne by exact Hne. apply Hs.
  - rewrite handle_reply_no_subject. exact Hs.
  - rewrite handle_reply_no_sender. exact Hs.
Qed.

Lemma keeps_threads_monitor (self0 : SimpleSDR) (cycles : nat) :
  keeps (fun s => threads_extend self0 (sdr s)) (monitor cycles).
Proof.
  assert (Hcheck : keeps (fun s => threads_extend self0 (sdr s)) check_for_replies).
  { unfold check_for_replies.
    apply keeps_try_except; [|intros e; apply keeps_ret].
    apply keeps_bind; [apply (keeps_on_world_instance (threads_extend self0)) | intros _].
    apply keeps_bind; [apply (keeps_on_world_instance (threads_extend self0)) | intros ids].
    apply keeps_for_each. intros id _. unfold process_message.
    apply keeps_bind; [apply (keeps_on_world_instance (threads_extend self0))|].
    intros [email_message|]; [|apply keeps_ret].
    apply keeps_bind; [apply keeps_extract_body | intros body].
    apply keeps_bind; [apply keeps_threads_handle_reply | intros _].
    apply (keeps_on_world_instance (threads_extend self0)). }
  induction cycles as [|n IH]; cbn [monitor]; [apply keeps_ret|].
  apply keeps_bind; [|intros _; exact IH].
  apply keeps_try_except.
  - apply keeps_bind; [exact Hcheck | intros _].
    apply (keeps_on_world_instance (threads_extend self0)).
  - intros e. apply (keeps_on_world_instance (threads_extend self0)).
Qed.

(** The reply handler changes no thread but the sender's, and it never
    shortens or rewrites a thread: after a call, every thread begins with
    the text it had before. *)
Theorem handle_reply_only_extends_sender
    (sender : string) (subject body : option string) (s : Sys) (key : string) :
  let s' := final (handle_reply (Some sender) subject body s) in
  startswith (dict_get (conversations (sdr s')) key)
             (dict_get (conversations (sdr s)) key) = true
  /\ (key <> lower sender ->
      conversations (sdr s') !! key = conversations (sdr s) !! key).
Proof.
  cbv zeta. split.
  - apply (keeps_threads_handle_reply (sdr s) (Some sender) subject body s).
    apply threads_extend_refl.
  - intros Hne. destruct subject as [subject_text|].
    + rewrite handle_reply_run. unfold final. cbn [snd sdr].
      destruct (smtp_oracle _ _ _ _ _); [|reflexivity].
      cbn [with_conversation conversations]. apply lookup_insert_ne. congruence.
    + rewrite handle_reply_no_subject. reflexivity.
Qed.

Lemma handle_reply_only_extends_sender_witness :
  conversations
    (sdr (final (handle_reply (Some "other@z.com") (Some "Hi") (Some "Hello?")
                              (seeded true)))) !! "x@y.com"
  = Some "Hello".
Proof.
  rewrite (proj2 (handle_reply_only_extends_sender "other@z.com" (Some "Hi")
                    (Some "Hello?") (seeded true) "x@y.com")).
  - reflexivity.
  - discriminate.
Defined.

(** Polling never loses history: after any number of cycles of the monitor,
    every thread of the store begins with the text it had before. *)
Theorem monitor_threads_only_grow (cycles : nat) (s : Sys) (key : string) :
  startswith (dict_get (conversations (sdr (final (monitor cycles s)))) key)
             (dict_get (conversations (sdr s)) key) = true.
Proof.
  apply (keeps_threads_monitor (sdr s) cycles s). apply threads_extend_refl.
Qed.

(** ** Starting the program *)

Lemma new_events_log_more (w : World) (evs : list event) :
  new_events w (log_more evs w) = evs.
Proof. apply new_events_app. reflexivity. Qed.

(** [main] never fails with an unexpected error before the monitor starts.
    It reaches the monitor only when the API key is set, the address is not
    the placeholder and the test email to its own address was submitted
    successfully; the instance then has an empty store, and the model was
    asked four times for the demonstration. When [main] stops early the
    model is never asked, and unless the test email failed nothing was
    submitted. *)
Theorem main_startup_gate (w : World) :
  exists r w',
    main_startup w = (Ret r, w')
    /\ r <> Stopped UnexpectedError
    /\ (forall self, r = Started self ->
          api_key_set w
          /\ email_address self <> placeholder_address
          /\ conversations self = ∅
          /\ sent (new_events w w')
             = [Submission (email_address self) test_subject test_body true]
          /\ length (asked (new_events w w')) = 4)
    /\ (forall why, r = Stopped why ->
          asked (new_events w w') = []
          /\ (why <> TestFailed -> sent (new_events w w') = [])).
Proof.
  unfold main_startup, try_except.
  destruct (SimpleSDR_init_run w) as [Hset Hunset].
  destruct (init_succeeds_dec w) as [Hkey|Hkey].
  - rewrite (bind_ret_eq _ _ _ _ _ (Hset Hkey)). destruct Hkey as [Hkey Hport].
    set (self := MkSDR _ _ _ _).
    destruct (String.eqb (email_address self) placeholder_address) eqn:Haddr.
    + exists (Stopped NotConfigured), w. cbn [ret]. rewrite new_events_none.
      split; [reflexivity|]. split; [discriminate|]. split; [discriminate|].
      intros why _. split; reflexivity.
    + apply String.eqb_neq in Haddr.
      rewrite (bind_ret_eq _ _ _ _ _
                 (send_email_smtp_run self (email_address self) test_subject test_body w)).
      destruct (smtp_oracle w (log w) (email_address self) test_subject test_body) eqn:Hok;
        cbn [negb].
      * set (w0 := push _ w).
        pose proof (generate_cold_email_run self "professional" "Startup CEO" w0) as H1.
        cbv zeta in H1. set (w1 := push _ w0) in H1.
        pose proof (generate_cold_email_run self "engaging" "Startup CEO" w1) as H2.
        cbv zeta in H2. set (w2 := push _ w1) in H2.
        pose proof (generate_cold_email_run self "concise" "Startup CEO" w2) as H3.
        cbv zeta in H3. set (w3 := push _ w2) in H3.
        assert (Hdrafts :
          map_M (fun persona => generate_cold_email self persona "Startup CEO")
                campaign_personas w0
          = (Ret [answer_or (cold_email_fallback self "Startup CEO")
                    (chat_oracle w0 (log w0)
                       (cold_email_request self "professional" "Startup CEO"));
                  answer_or (cold_email_fallback self "Startup CEO")
                    (chat_oracle w1 (log w1)
                       (cold_email_request self "engaging" "Startup CEO"));
                  answer_or (cold_email_fallback self "Startup CEO")
                    (chat_oracle w2 (log w2)
                       (cold_email_request self "concise" "Startup CEO"))], w3)).
        { unfold campaign_personas.
          apply map_M_cons_run with (s1 := w1); [exact H1|].
          apply map_M_cons_run with (s1 := w2); [exact H2|].
          apply map_M_cons_run with (s1 := w3); [exact H3|]. reflexivity. }
        rewrite (bind_ret_eq _ _ _ _ _ Hdrafts).
        rewrite (bind_ret_eq _ _ _ _ _ (select_best_email_run self _ _ _ [] w3)).
        do 2 eexists. cbn [ret]. split; [reflexivity|]. split; [discriminate|].
        split.
        -- intros self' Hself'. injection Hself' as <-.
           split; [exact Hkey|]. split; [exact Haddr|]. split; [reflexivity|].
           erewrite new_events_app; cycle 1.
           { subst w3 w2 w1 w0. cbn. rewrite <- !app_assoc. reflexivity. }
           split; reflexivity.
        -- intros why Hwhy. discriminate Hwhy.
      * exists (Stopped TestFailed). eexists. cbn [ret]. split; [reflexivity|].
        split; [discriminate|]. split; [discriminate|].
        intros why Hwhy. injection Hwhy as <-. rewrite new_events_push1.
        split; [reflexivity | intros H; exfalso; apply H; reflexivity].
  - rewrite (bind_raise_eq _ _ _ _ _ (Hunset Hkey)).
    exists (Stopped ConfigurationError), w. cbn [ret]. rewrite new_events_none.
    split; [reflexivity|]. split; [discriminate|]. split; [discriminate|].
    intros why _. split; reflexivity.
Qed.

Lemma main_startup_gate_witness :
  exists self,
    fst (main_startup (offline true)) = Ret (Started self)
    /\ conversations self = ∅
    /\ fst (main_startup (offline false)) = Ret (Stopped TestFailed).
Proof.
  destruct (main_startup_gate (offline true)) as (r & w' & Hrun & _ & Hstart & _).
  assert (Hr : r = Started me).
  { apply (f_equal fst) in Hrun. cbn [fst] in Hrun.
    assert (Hc : fst (main_startup (offline true)) = Ret (Started me))
      by (vm_compute; reflexivity).
    rewrite Hc in Hrun. injection Hrun as <-. reflexivity. }
  exists me. rewrite Hrun, Hr. split; [reflexivity|].
  split; [apply (Hstart me Hr) | vm_compute; reflexivity].
Defined.


(** ** One reply, at most one answer *)

(** One call of the reply handler asks the model at most once and submits
    at most one email; an email it submits goes to the sender of the reply,
    under the subject computed from the subject of the reply. *)
Theorem handle_reply_at_most_one_send
    (from_email subject body : option string) (s : Sys) :
  let evs := new_events (ext s) (ext (final (handle_reply from_email subject body s))) in
  length (asked evs) <= 1
  /\ length (sent evs) <= 1
  /\ forall sub, In sub (sent evs) ->
       from_email = Some (sub_to sub)
       /\ exists subject_text,
            subject = Some subject_text /\ sub_subject sub = reply_subject subject_text.
Proof.
  cbv zeta. destruct from_email as [sender|]; [destruct subject as [subject_text|]|].
  - rewrite handle_reply_run. unfold final. cbn [snd ext]. rewrite new_events_push3.
    cbn. split; [lia|]. split; [lia|].
    intros sub [<-|[]]. cbn. split; [reflexivity|]. exists subject_text. split; reflexivity.
  - rewrite handle_reply_no_subject. unfold final. cbn [snd ext].
    rewrite new_events_push2. cbn. split; [lia|]. split; [lia|]. intros sub [].
  - rewrite handle_reply_no_sender. unfold final. cbn [snd ext].
    rewrite new_events_push1. cbn. split; [lia|]. split; [lia|]. intros sub [].
Qed.

Lemma handle_reply_at_most_one_send_witness :
  exists subject_text,
    Some "Re: Hi" = Some subject_text /\ "Re: Hi" = reply_subject subject_text.
Proof.
  refine (proj2 (proj2 (proj2 (handle_reply_at_most_one_send (Some "X@y.com")
                                 (Some "Re: Hi") (Some "ok") (seeded true)))
                       (Submission "X@y.com" "Re: Hi" reply_fallback true) _)).
  vm_compute. left. reflexivity.
Defined.

(** ** From the campaign to the reply *)

(** When the campaign email to a recipient was submitted successfully, a
    later reply from that address, in whatever letter case, is answered with
    the campaign email as the thread so far. *)
Theorem reply_sees_campaign_email
    (recipient sender subject : string) (body : option string) (s : Sys)
    (campaign_subject campaign_body : string) :
  let s1 := final (campaign_step recipient s) in
  let s2 := final (handle_reply (Some sender) (Some subject) body s1) in
  In (Submission recipient campaign_subject campaign_body true)
     (sent (new_events (ext s) (ext s1))) ->
  same_ignoring_case sender recipient = true ->
  store_get (conversations (sdr s1)) sender = campaign_body
  /\ exists answer,
       In (EvChat (reply_request (sdr s1) campaign_body body) answer)
          (new_events (ext s1) (ext s2)).
Proof.
  cbv zeta. destruct (campaign_step_run recipient s) as (a & Hstep & _).
  rewrite Hstep. unfold final. cbn [snd].
  unfold step_state at 1. cbn [ext]. rewrite new_events_log_more.
  intros Hin Hcase. apply same_ignoring_case_lower in Hcase.
  cbn in Hin. destruct Hin as [Hin|[]]. injection Hin as _ Hbody Hok.
  assert (Hget : store_get (conversations (sdr (step_state recipient a s))) sender
                 = campaign_body).
  { unfold store_get, step_state. cbn [sdr]. rewrite Hok, Hcase.
    cbn [with_conversation conversations]. rewrite dict_get_insert. exact Hbody. }
  split; [exact Hget|].
  pose proof (handle_reply_run sender subject body (step_state recipient a s)) as Hrun.
  cbv zeta in Hrun. rewrite Hrun. cbn [snd ext].
  rewrite new_events_push3. unfold store_get in Hget. rewrite Hget.
  eexists. cbn [In]. right; left. reflexivity.
Qed.

Lemma reply_sees_campaign_email_witness :
  store_get
    (conversations (sdr (final (campaign_step "Jo@B.com" (MkSys me (offline true))))))
    "jo@b.COM"
  = cold_email_fallback me "CEO".
Proof.
  apply (proj1 (reply_sees_campaign_email "Jo@B.com" "jo@b.COM" "Hi" (Some "More?")
                  (MkSys me (offline true))
                  "Quick question about ComplAI" (cold_email_fallback me "CEO")
                  ltac:(vm_compute; left; reflexivity) eq_refl)).
Defined.

(** ** A message the handler cannot process, on a server that flags on fetch *)

Lemma unseen_flag_seen_other (id id' : nat) (mb : Mailbox) :
  In id' (unseen mb) -> id' <> id -> In id' (unseen (flag_seen id mb)).
Proof.
  rewrite !unseen_spec. unfold flag_seen. cbn [items].
  intros (it & Hin & Hseen & Hid) Hne. exists (mark_seen id it).
  split; [apply in_map, Hin|]. unfold mark_seen.
  destruct (Nat.eqb (msg_id it) id) eqn:Heq.
  - apply Nat.eqb_eq in Heq. congruence.
  - split; assumption.
Qed.

Lemma unseen_flag_seen_self (id : nat) (mb : Mailbox) :
  ~ In id (unseen (flag_seen id mb)).
Proof. intros H. apply unseen_flag_seen in H. destruct H as [_ H]. exact (H eq_refl). Qed.

Lemma process_message_malformed_any (id : nat) (s : Sys) (m : message) :
  lookup_msg (inbox (ext s)) id = Some m ->
  ~ well_formed m ->
  exists e s' evs,
    process_message id s = (Raise e, s')
    /\ log (ext s') = log (ext s) ++ EvImapFetch id :: evs
    /\ fetched evs = [] /\ sent evs = []
    /\ inbox (ext s') = inbox (after_fetch id (ext s)) /\ sdr s' = sdr s.
Proof.
  intros Hm Hbad. unfold process_message.
  rewrite (bind_ret_eq _ _ _ _ _ (fetch_run id s)), Hm.
  set (s1 := MkSys (sdr s) (after_fetch id (ext s))).
  destruct (body_of m) as [b|] eqn:Hb.
  - assert (Hx : extract_body m s1 = (Ret b, s1))
      by (rewrite extract_body_run, Hb; reflexivity).
    rewrite (bind_ret_eq _ _ _ _ _ Hx).
    destruct (msg_from m) as [f|] eqn:Hf; [destruct (msg_subject m) as [sj|] eqn:Hsj|].
    + exfalso. apply Hbad. repeat split; eauto.
    + pose proof (handle_reply_no_subject f (Some b) s1) as Hrun. cbv zeta in Hrun.
      rewrite (bind_raise_eq _ _ _ _ _ Hrun).
      do 2 eexists. eexists [_; _]. split; [reflexivity|]. cbn.
      rewrite after_fetch_log, <- !app_assoc. repeat split.
    + rewrite (bind_raise_eq _ _ _ _ _ (handle_reply_no_sender (msg_subject m) (Some b) s1)).
      do 2 eexists. eexists [_]. split; [reflexivity|]. cbn.
      rewrite after_fetch_log, <- !app_assoc. repeat split.
  - assert (Hx : extract_body m s1 = (Raise UnicodeDecodeError, s1))
      by (rewrite extract_body_run, Hb; reflexivity).
    rewrite (bind_raise_eq _ _ _ _ _ Hx).
    do 2 eexists. exists []. split; [reflexivity|]. cbn.
    rewrite after_fetch_log. repeat split.
Qed.

(** On a server that flags a message when it is fetched, a first unseen
    message that lacks a header or does not decode is fetched once and never
    again: the cycle stops at it without submitting anything, the messages
    behind it stay unseen for the next cycle, and no later cycle fetches
    it. It is never answered. *)
Theorem malformed_message_is_dropped
    (s : Sys) (id : nat) (rest : list nat) (m : message) :
  reachable (inbox (ext s)) = true ->
  fetch_sets_seen (inbox (ext s)) = true ->
  unseen (inbox (ext s)) = id :: rest ->
  lookup_msg (inbox (ext s)) id = Some m ->
  ~ well_formed m ->
  let s' := final (check_for_replies s) in
  let evs := new_events (ext s) (ext s') in
  fetched evs = [id]
  /\ sent evs = []
  /\ sdr s' = sdr s
  /\ ~ In id (unseen (inbox (ext s')))
  /\ (forall id', In id' rest -> id' <> id -> In id' (unseen (inbox (ext s'))))
  /\ (forall cycles,
        ~ In id (fetched (new_events (ext s') (ext (final (monitor cycles s')))))).
Proof.
  intros Hup Hflag Hunseen Hm Hbad. cbv zeta.
  destruct (process_message_malformed_any id (MkSys (sdr s) (ext s)) m Hm Hbad)
    as (e & s' & evs & Hrun & Hlog & Hf & Hs & Hin & Hsdr).
  assert (Hfinal : final (check_for_replies s) = s').
  { rewrite check_for_replies_unfold, Hup, Hunseen. cbn [for_each].
    unfold try_except. rewrite (bind_raise_eq _ _ _ _ _ Hrun). reflexivity. }
  rewrite Hfinal. cbn [ext sdr] in Hlog, Hin, Hsdr.
  rewrite (new_events_app _ _ _ Hlog). cbn [fetched sent]. rewrite Hf, Hs.
  assert (Hbox : inbox (ext s') = flag_seen id (inbox (ext s))).
  { rewrite Hin. unfold after_fetch. rewrite Hm, Hflag. reflexivity. }
  assert (Hgone : ~ In id (unseen (inbox (ext s'))))
    by (rewrite Hbox; apply unseen_flag_seen_self).
  split; [reflexivity|]. split; [reflexivity|]. split; [exact Hsdr|].
  split; [exact Hgone|]. split.
  - intros id' Hid' Hne. rewrite Hbox. apply unseen_flag_seen_other; [|exact Hne].
    rewrite Hunseen. right. exact Hid'.
  - intros cycles Hfetch.
    pose proof (keeps_poll_monitor _ _ _ cycles s' (poll_inv_start (ext s')))
      as (_ & (evs' & Hlog' & Hf') & _).
    rewrite (new_events_app _ _ _ Hlog') in Hfetch.
    apply Hgone, Hf', Hfetch.
Qed.

Lemma malformed_message_is_dropped_witness :
  ~ In 7 (unseen (inbox (ext (final (check_for_replies (MkSys me
            (offline_with (MkMailbox true true
               [MailItem 7 false no_subject_mail; MailItem 8 false reply_mail])
               true)))))))
  /\ In 8 (unseen (inbox (ext (final (check_for_replies (MkSys me
            (offline_with (MkMailbox true true
               [MailItem 7 false no_subject_mail; MailItem 8 false reply_mail])
               true))))))).
Proof.
  pose proof (malformed_message_is_dropped
                (MkSys me (offline_with (MkMailbox true true
                   [MailItem 7 false no_subject_mail; MailItem 8 false reply_mail]) true))
                7 [8] no_subject_mail eq_refl eq_refl eq_refl eq_refl) as H.
  cbv zeta in H. destruct H as (_ & _ & _ & Hgone & Hrest & _).
  - intros (_ & [sj Hsj] & _). discriminate Hsj.
  - split; [exact Hgone|]. apply Hrest; [left; reflexivity | discriminate].
Defined.

(** ** Personas *)

(** A persona that is none of the three known ones is treated as
    "professional": the model receives the same request and the result is
    the same. *)
Theorem unknown_persona_is_professional
    (self : SimpleSDR) (persona recipient : string) (w : World) :
  persona <> "professional" -> persona <> "engaging" -> persona <> "concise" ->
  cold_email_request self persona recipient
  = cold_email_request self "professional" recipient
  /\ generate_cold_email self persona recipient w
     = generate_cold_email self "professional" recipient w.
Proof.
  intros H1 H2 H3.
  assert (Hget : personas_get persona = personas_get "professional").
  { assert (Hnone : personas !! persona = None).
    { unfold personas. cbn [list_to_map foldr fst snd uncurry].
      rewrite !lookup_insert_ne by congruence. apply lookup_empty. }
    unfold personas_get at 1. rewrite Hnone. reflexivity. }
  assert (Hreq : cold_email_request self persona recipient
                 = cold_email_request self "professional" recipient).
  { unfold cold_email_request, cold_email_prompt. rewrite Hget. reflexivity. }
  split; [exact Hreq|].
  rewrite !generate_cold_email_run. cbv zeta. rewrite Hreq. reflexivity.
Qed.

Lemma unknown_persona_is_professional_witness :
  generate_cold_email me "friendly" "CTO" (parrot " Dear CTO " true)
  = generate_cold_email me "professional" "CTO" (parrot " Dear CTO " true).
Proof.
  apply (unknown_persona_is_professional me "friendly" "CTO" (parrot " Dear CTO " true));
    discriminate.
Defined.

(** ** Writing and reading a conversation *)

Lemma handler_reads_entry (s : Sys) (addr text : string) :
  conversations (sdr s) !! lower addr = Some text -> handler_reads s addr text.
Proof.
  intros Hentry. split; [exact Hentry|]. intros subject body.
  pose proof (handle_reply_run addr subject body s) as Hrun. cbv zeta in Hrun.
  rewrite Hrun. unfold final. cbn [snd ext]. rewrite new_events_push3.
  unfold dict_get. rewrite Hentry. eexists. cbn [In]. right; left. reflexivity.
Qed.

Lemma written_is_read_same_key (s : Sys) (addr addr' : string) :
  lower addr = lower addr' -> written_is_read s addr addr'.
Proof.
  intros Hkey. split.
  - intros subject text Hin.
    destruct (campaign_step_run addr s) as (a & Hstep & _).
    rewrite Hstep in *. unfold final in *. cbn [snd] in *.
    unfold step_state in Hin at 1. cbn [ext] in Hin.
    rewrite new_events_log_more in Hin. cbn in Hin.
    destruct Hin as [Hin|[]]. injection Hin as _ Hbody Hok.
    apply handler_reads_entry. unfold step_state. cbn [sdr].
    rewrite Hok, <- Hkey. cbn [with_conversation conversations].
    rewrite lookup_insert_eq, Hbody. reflexivity.
  - intros subject body account subject_sent reply Hin.
    pose proof (handle_reply_run addr subject body s) as Hrun. cbv zeta in Hrun.
    rewrite Hrun in *. clear Hrun. unfold final in *. cbn [snd ext] in *.
    rewrite new_events_push3 in Hin.
    set (reply0 := answer_or reply_fallback _) in *.
    set (ok := smtp_oracle _ _ _ _ _) in *.
    cbn [In] in Hin. destruct Hin as [H|[H|[H|[]]]]; try discriminate.
    injection H as _ _ Hreply Hok. subst reply.
    apply handler_reads_entry. cbn [sdr]. rewrite Hok, <- Hkey.
    cbn [with_conversation conversations]. apply lookup_insert_eq.
Qed.

(** C5, as the code has it. What is written for an address, by the campaign
    or by the reply handler, is what the reply handler reads for that
    address, and for any address that differs from it only in the case of
    letters, as "A@B.com" from "a@b.com". *)
Theorem conversation_roundtrip_up_to_case (s : Sys) (addr addr' : string) :
  written_is_read s addr addr
  /\ (same_ignoring_case addr addr' = true -> written_is_read s addr addr')
  /\ written_is_read s "a@b.com" "A@B.com".
Proof.
  split; [apply written_is_read_same_key; reflexivity|]. split.
  - intros Hcase. apply written_is_read_same_key, same_ignoring_case_lower, Hcase.
  - apply written_is_read_same_key. reflexivity.
Qed.

Lemma conversation_roundtrip_up_to_case_witness :
  handler_reads (final (campaign_step "Jo@B.com" (MkSys me (offline true))))
    "jO@b.COM" (cold_email_fallback me "CEO").
Proof.
  apply (proj1 (proj1 (proj2 (conversation_roundtrip_up_to_case
                                (MkSys me (offline true)) "Jo@B.com" "jO@b.COM"))
                      eq_refl)
               "Quick question about ComplAI").
  vm_compute. left. reflexivity.
Defined.

(** C5 as written fails for surrounding whitespace: the two addresses below
    are equal once trimmed, yet the email the campaign stored for the first
    is not what the handler reads for the second. *)
Lemma trimmed_address_is_another_entry :
  strip " a@b.com" = strip "a@b.com"
  /\ ~ written_is_read (MkSys me (offline true)) "a@b.com" " a@b.com".
Proof.
  split; [reflexivity|]. intros [Hcampaign _].
  destruct (Hcampaign "Quick question about ComplAI" (cold_email_fallback me "CEO"))
    as [Hentry _].
  - vm_compute. left. reflexivity.
  - vm_compute in Hentry. discriminate Hentry.
Qed.

(** ** At most one delivery, on a server that flags a fetched message *)


Section Flagging.

Variable L0 : list event.








End Flagging.




(** ** The key of the reply handler and the key of the campaign *)



